(** * The chat widget of customer_support (static/src/js/chatbot.js)

    A shallow embedding of the script's DOMContentLoaded handler: the
    helpers [appendMessage], [showLoading], [hideLoading], the async
    function [sendMessage], the listeners it attaches, and the event
    loop that runs them.

    The page is modelled by the three things the script touches: the
    children of [#chat-box], the value of [#user-input], and (as ghost
    state) the sequence of effects performed so far.  An [async]
    function is cut at its [await]s: each piece is a computation in a
    state-and-exception monad, and the event loop decides when, and with
    what outcome, a suspended call is resumed. *)

From Stdlib Require Import Ascii String List Lia.
From stdpp Require Import base option list strings.

Set Warnings "-register-all".
Open Scope string_scope.
Open Scope list_scope.

(** ** JavaScript values, as the script can receive them from [res.json()] *)

(** A number is only ever tested for truthiness and rendered as text by
    this script, so it is represented by those two observations. *)
Record Number := { num_is_zero : bool; num_text : string }.

Inductive Value :=
| VUndefined
| VNull
| VBool (b : bool)
| VNum (n : Number)
| VStr (s : string)
| VArr (items : list Value)
| VObj (fields : list (string * Value)).

(** [if (v)]: ToBoolean. *)
Definition truthy (v : Value) : bool :=
  match v with
  | VUndefined | VNull => false
  | VBool b => b
  | VNum n => negb (num_is_zero n)
  | VStr s => negb (String.eqb s EmptyString)
  | VArr _ | VObj _ => true
  end.

(** Own data property of an object built by JSON.parse; of duplicate keys in
    the text the last one wins. *)
Fixpoint own_property (name : string) (fields : list (string * Value)) : option Value :=
  match fields with
  | [] => None
  | (k, v) :: rest =>
      match own_property name rest with
      | Some v' => Some v'
      | None => if String.eqb k name then Some v else None
      end
  end.

(** ToString.  [None] stands for the TypeError raised when an object cannot
    be converted to a primitive: an object parsed from JSON inherits
    Object.prototype.toString unless it has an own (hence non-callable)
    property of that name.  Array.prototype.join renders null and undefined
    items as the empty string. *)
Fixpoint to_string (v : Value) : option string :=
  match v with
  | VUndefined => Some "undefined"
  | VNull => Some "null"
  | VBool true => Some "true"
  | VBool false => Some "false"
  | VNum n => Some (num_text n)
  | VStr s => Some s
  | VArr items =>
      (fix join (xs : list Value) : option string :=
         match xs with
         | [] => Some EmptyString
         | x :: rest =>
             let item := match x with
                         | VUndefined | VNull => Some EmptyString
                         | _ => to_string x
                         end in
             match item, rest with
             | None, _ => None
             | Some s, [] => Some s
             | Some s, _ :: _ =>
                 match join rest with
                 | Some r => Some (s +:+ "," +:+ r)
                 | None => None
                 end
             end
         end) items
  | VObj fields =>
      match own_property "toString" fields with
      | Some _ => None
      | None => Some "[object Object]"
      end
  end.

(** ** Strings *)

(** String.prototype.trim, for strings whose code units are below 256: the
    white space and line terminator code units in that range. *)
Definition is_white_space (c : ascii) : bool :=
  match nat_of_ascii c with
  | 9 | 10 | 11 | 12 | 13 | 32 | 160 => true
  | _ => false
  end.

Fixpoint trim_start (s : string) : string :=
  match s with
  | EmptyString => EmptyString
  | String c rest => if is_white_space c then trim_start rest else s
  end.

Definition trim (s : string) : string :=
  String.rev (trim_start (String.rev (trim_start s))).

(** ** The page *)

Inductive Content :=
| InnerText (text : string)
| InnerHTML (markup : string).

Record Element := {
  className : string;
  content : Content;
  id : string                (* the empty string when no id was set *)
}.

(** The envelope passed to [fetch]; [body] is the object handed to
    JSON.stringify. *)
Record Request := {
  url : string;
  method : string;
  content_type : string;
  body : Value
}.

Inductive Effect :=
| AppendChild (e : Element)
| RemoveChild (e : Element)
| ClearChildren
| ScrollToBottom
| SetInputValue (v : string)
| Fetch (r : Request)
| ConsoleLog (line : string)
| ConsoleError (label description : string)
| PreventDefault.

(** [chatBox] holds the children of the #chat-box element, [userInput]
    the value of #user-input.  The page template is not part of the
    sources; it is taken to use the id loading-indicator nowhere outside
    the chat box, so that document.getElementById for that id is a search
    among the chat box's children. *)
Record World := {
  chatBox : list Element;
  userInput : string;
  trace : list Effect
}.

(** ** Computations: state and exceptions *)

Record Error := { message : string }.

Inductive Result (A : Type) :=
| Ok (a : A) (w : World)
| Throw (e : Error) (w : World).
Arguments Ok {A} a w.
Arguments Throw {A} e w.

Definition M (A : Type) : Type := World -> Result A.

Definition ret {A} (a : A) : M A := fun w => Ok a w.

Definition bind {A B} (m : M A) (k : A -> M B) : M B :=
  fun w => match m w with
           | Ok a w' => k a w'
           | Throw e w' => Throw e w'
           end.

Definition throw {A} (e : Error) : M A := fun w => Throw e w.

(** [try { body } catch (err) { handler }] *)
Definition try_catch {A} (body : M A) (handler : Error -> M A) : M A :=
  fun w => match body w with
           | Ok a w' => Ok a w'
           | Throw e w' => handler e w'
           end.

Notation "'let*' x ':=' m 'in' k" := (bind m (fun x => k))
  (at level 10, x binder, m at level 100, k at level 200).
Notation "m ';;;' k" := (bind m (fun _ => k))
  (at level 100, k at level 200, right associativity).

Definition world_of {A} (r : Result A) : World :=
  match r with Ok _ w | Throw _ w => w end.

Definition effect (e : Effect) : M unit :=
  fun w => Ok tt {| chatBox := chatBox w; userInput := userInput w;
                    trace := trace w ++ [e] |}.

(** What the engine puts in the [message] of the TypeError for reading a
    property of null or undefined, and for a failed conversion to a
    primitive.  The wording is V8's; nothing below depends on it beyond its
    being some text chosen by the engine. *)
Definition null_read_error (v prop : string) : Error :=
  {| message := "Cannot read properties of " +:+ v +:+ " (reading '" +:+ prop +:+ "')" |}.
Definition to_primitive_error : Error :=
  {| message := "Cannot convert object to primitive value" |}.

(** [v.name], for the four names the script reads ([result], [reply],
    [error], [message]): none of them is defined on a built-in prototype, so
    on anything but an object with such an own property the read gives
    undefined, and on null and undefined it throws. *)
Definition get (v : Value) (name : string) : M Value :=
  match v with
  | VUndefined => throw (null_read_error "undefined" name)
  | VNull => throw (null_read_error "null" name)
  | VObj fields => ret (default VUndefined (own_property name fields))
  | _ => ret VUndefined
  end.

(** ["Error: " + v] *)
Definition concat (prefix : string) (v : Value) : M Value :=
  match to_string v with
  | Some s => ret (VStr (prefix +:+ s))
  | None => throw to_primitive_error
  end.

(** Conversion of the value assigned to [innerText], an attribute declared
    [LegacyNullToEmptyString] DOMString. *)
Definition dom_string (v : Value) : M string :=
  match v with
  | VNull => ret EmptyString
  | _ => match to_string v with
         | Some s => ret s
         | None => throw to_primitive_error
         end
  end.

(** ** DOM operations on the chat box *)

Definition appendChild (e : Element) : M unit :=
  fun w => Ok tt {| chatBox := chatBox w ++ [e]; userInput := userInput w;
                    trace := trace w ++ [AppendChild e] |}.

Definition has_id (i : string) (e : Element) : bool := String.eqb (id e) i.

Definition getElementById (i : string) : M (option Element) :=
  fun w => Ok (find (has_id i) (chatBox w)) w.

Fixpoint remove_first (p : Element -> bool) (l : list Element) : list Element :=
  match l with
  | [] => []
  | e :: rest => if p e then rest else e :: remove_first p rest
  end.

(** [e.remove()], for the element [e] that getElementById just returned:
    the first one in document order carrying its id. *)
Definition remove (e : Element) : M unit :=
  fun w => Ok tt {| chatBox := remove_first (has_id (id e)) (chatBox w);
                    userInput := userInput w;
                    trace := trace w ++ [RemoveChild e] |}.

(** Assigning the empty string to [chatBox.innerHTML]. *)
Definition clearChildren : M unit :=
  fun w => Ok tt {| chatBox := []; userInput := userInput w;
                    trace := trace w ++ [ClearChildren] |}.

Definition getInputValue : M string := fun w => Ok (userInput w) w.

Definition setInputValue (v : string) : M unit :=
  fun w => Ok tt {| chatBox := chatBox w; userInput := v;
                    trace := trace w ++ [SetInputValue v] |}.

(** ** The script's internal functions *)

(** Lines 15-21. *)
Definition appendMessage (text : Value) (cls : string) : M unit :=
  let* s := dom_string text in
  let msg := {| className := "message " +:+ cls; content := InnerText s;
               id := EmptyString |} in
  appendChild msg ;;;
  effect ScrollToBottom.

Definition double_quote : string := String (ascii_of_nat 34) EmptyString.

Definition span_dot : string :=
  "<span class=" +:+ double_quote +:+ "dot" +:+ double_quote +:+ "></span>".

Definition loader : Element :=
  {| className := "message bot loading";
     content := InnerHTML (span_dot +:+ span_dot +:+ span_dot);
     id := "loading-indicator" |}.

(** Lines 23-31. *)
Definition showLoading : M unit :=
  let* found := getElementById "loading-indicator" in
  match found with
  | Some _ => ret tt
  | None => appendChild loader ;;; effect ScrollToBottom
  end.

(** Lines 33-36. *)
Definition hideLoading : M unit :=
  let* found := getElementById "loading-indicator" in
  match found with
  | Some l => remove l
  | None => ret tt
  end.

(** ** sendMessage

    The async function is cut at its two awaits: [sendMessage_begin] runs
    when it is called, [sendMessage_on_fetch] when the promise of [fetch]
    settles, [sendMessage_on_json] when the promise of [res.json()] does.
    The try block spans the last two; its handler is [sendMessage_catch]. *)

Inductive Settled (A : Type) :=
| Fulfilled (a : A)
| Rejected (err : Error).
Arguments Fulfilled {A} a.
Arguments Rejected {A} err.

Definition endpoint : string := "/customer_support/chatbot/message".

Definition request_for (msg : string) : Request :=
  {| url := endpoint;
     method := "POST";
     content_type := "application/json";
     body := VObj [("jsonrpc", VStr "2.0");
                   ("method", VStr "call");
                   ("params", VObj [("message", VStr msg)])] |}.

Definition fetch (r : Request) : M unit := effect (Fetch r).

(** The argument of sendMessage is null (the default, and what getAttribute
    gives for a missing attribute) or a string. *)
Definition js_of (manualMsg : option string) : Value :=
  match manualMsg with
  | Some s => VStr s
  | None => VNull
  end.

(** Lines 39-55, up to the call of [fetch].  The result tells whether the
    call got as far as issuing its request, and is then suspended on it. *)
Definition sendMessage_begin (manualMsg : option string) : M (option Request) :=
  let* msg :=
    (if truthy (js_of manualMsg) then ret (default EmptyString manualMsg)
     else let* v := getInputValue in ret (trim v)) in
  if negb (truthy (VStr msg)) then ret None
  else
    appendMessage (VStr msg) "user" ;;;
    (if negb (truthy (js_of manualMsg)) then setInputValue EmptyString else ret tt) ;;;
    showLoading ;;;
    fetch (request_for msg) ;;;
    ret (Some (request_for msg)).

(** Lines 73-77. *)
Definition sendMessage_catch (err : Error) : M unit :=
  hideLoading ;;;
  appendMessage (VStr ("Error: " +:+ message err)) "err" ;;;
  effect (ConsoleError "Chat error:" (message err)).

(** Lines 57-58.  [true]: suspended again, on [res.json()]. *)
Definition sendMessage_on_fetch (res : Settled unit) : M bool :=
  match res with
  | Fulfilled _ =>
      try_catch (hideLoading ;;; ret true)
                (fun err => sendMessage_catch err ;;; ret false)
  | Rejected err => sendMessage_catch err ;;; ret false
  end.

(** Lines 60-72. *)
Definition render (data : Value) : M unit :=
  let* result := get data "result" in
  if truthy result then
    let* reply := get result "reply" in
    if truthy reply then
      appendMessage reply "bot"
    else
      let* error := get result "error" in
      if truthy error then
        let* text := concat "Error: " error in
        appendMessage text "err"
      else
        appendMessage (VStr "Error: Unexpected response format") "err"
  else
    let* error := get data "error" in
    if truthy error then
      let* description := get error "message" in
      let* text := concat "Error: " description in
      appendMessage text "err"
    else
      appendMessage (VStr "Error: Could not get response") "err".

Definition sendMessage_on_json (data : Settled Value) : M unit :=
  match data with
  | Fulfilled d => try_catch (render d) sendMessage_catch
  | Rejected err => sendMessage_catch err
  end.

(** The whole of sendMessage when nothing else runs between its pieces.
    [exchange] tells how the request went: rejected, or answered with a body
    that parses to a value or fails to. *)
Definition sendMessage (manualMsg : option string) (exchange : Settled (Settled Value))
  : M unit :=
  let* issued := sendMessage_begin manualMsg in
  match issued with
  | None => ret tt
  | Some _ =>
      match exchange with
      | Rejected err => sendMessage_on_fetch (Rejected err) ;;; ret tt
      | Fulfilled body =>
          let* suspended := sendMessage_on_fetch (Fulfilled tt) in
          if suspended then sendMessage_on_json body else ret tt
      end
  end.

(** ** Listeners *)

Definition cleared_greeting : string := "Chat cleared. How can I help you?".
Definition welcome : string := "Hello! I'm Dragon Chat. How can I assist you today?".

(** Lines 95-100; [confirmed] is the user's answer to [confirm]. *)
Definition clear_click (confirmed : bool) : M unit :=
  if confirmed then
    clearChildren ;;;
    appendMessage (VStr cleared_greeting) "bot"
  else ret tt.

(** The elements the handler looks up when the document has loaded: the
    children of #chat-box and the value of #user-input when these exist,
    whether the two buttons exist, and the data-msg attribute (null when
    missing) of each .quick-reply element. *)
Record Document := {
  doc_chatBox : option (list Element);
  doc_userInput : option string;
  doc_sendBtn : bool;
  doc_clearBtn : bool;
  doc_quickReplies : list (option string)
}.

Inductive Task :=
| AwaitingFetch (r : Request)
| AwaitingJson.

(** A page on which the script has set itself up. *)
Record Session := {
  sendBtn : bool;
  clearBtn : bool;
  quickReplies : list (option string);
  world : World;
  tasks : list Task             (* the suspended calls of sendMessage *)
}.

Inductive Loaded :=
| Skipped (effects : list Effect)      (* line 11: returned before any set-up *)
| Attached (s : Session).

Definition not_found_line : string :=
  "Chatbot elements not found - probably not on chatbot page".

(** The DOMContentLoaded handler, lines 1-112. *)
Definition DOMContentLoaded (d : Document) : Loaded :=
  match doc_chatBox d, doc_userInput d with
  | Some children, Some value =>
      let w := {| chatBox := children; userInput := value; trace := [] |} in
      Attached {| sendBtn := doc_sendBtn d;
                  clearBtn := doc_clearBtn d;
                  quickReplies := doc_quickReplies d;
                  world := world_of (appendMessage (VStr welcome) "bot" w);
                  tasks := [] |}
  | _, _ => Skipped [ConsoleLog not_found_line]
  end.

(** ** The event loop *)

Inductive Event :=
| TypeText (v : string)                    (* the user edits #user-input *)
| ClickSend
| Keypress (key : string)
| ClickClear (confirmed : bool)
| ClickQuickReply (i : nat)
| FetchSettled (i : nat) (res : Settled unit)
| JsonSettled (i : nat) (data : Settled Value).

Definition with_world (s : Session) (w : World) : Session :=
  {| sendBtn := sendBtn s; clearBtn := clearBtn s; quickReplies := quickReplies s;
     world := w; tasks := tasks s |}.

Definition with_tasks (s : Session) (ts : list Task) : Session :=
  {| sendBtn := sendBtn s; clearBtn := clearBtn s; quickReplies := quickReplies s;
     world := world s; tasks := ts |}.

(** A call [sendMessage(manualMsg)] from a listener. *)
Definition call_sendMessage (manualMsg : option string) (s : Session) : Session :=
  match sendMessage_begin manualMsg (world s) with
  | Ok (Some r) w => with_tasks (with_world s w) (tasks s ++ [AwaitingFetch r])
  | Ok None w => with_world s w
  | Throw _ w => with_world s w
  end.

Definition step (s : Session) (ev : Event) : Session :=
  match ev with
  | TypeText v =>
      with_world s {| chatBox := chatBox (world s); userInput := v;
                      trace := trace (world s) |}
  | ClickSend =>
      if sendBtn s then call_sendMessage None s else s
  | Keypress key =>
      if String.eqb key "Enter"
      then call_sendMessage None (with_world s (world_of (effect PreventDefault (world s))))
      else s
  | ClickClear confirmed =>
      if clearBtn s then with_world s (world_of (clear_click confirmed (world s))) else s
  | ClickQuickReply i =>
      match quickReplies s !! i with
      | Some data_msg => call_sendMessage data_msg s
      | None => s
      end
  | FetchSettled i res =>
      match tasks s !! i with
      | Some (AwaitingFetch _) =>
          match sendMessage_on_fetch res (world s) with
          | Ok true w => with_tasks (with_world s w) (<[i := AwaitingJson]> (tasks s))
          | Ok false w | Throw _ w => with_tasks (with_world s w) (delete i (tasks s))
          end
      | _ => s
      end
  | JsonSettled i data =>
      match tasks s !! i with
      | Some AwaitingJson =>
          with_tasks (with_world s (world_of (sendMessage_on_json data (world s))))
                     (delete i (tasks s))
      | _ => s
      end
  end.

Definition run (s : Session) (evs : list Event) : Session := fold_left step evs s.

(** ** Reading the chat box as the conversation log *)

Inductive Role := User | Bot | Err.

Record Message := { role : Role; text : string }.

(** The elements made by [appendMessage] are the messages; the loader,
    which the script finds by its id, is not one. *)
Definition message_of (e : Element) : option Message :=
  match content e with
  | InnerText t =>
      if has_id "loading-indicator" e then None
      else if String.eqb (className e) "message user" then Some {| role := User; text := t |}
      else if String.eqb (className e) "message bot" then Some {| role := Bot; text := t |}
      else if String.eqb (className e) "message err" then Some {| role := Err; text := t |}
      else None
  | InnerHTML _ => None
  end.

Definition conversation (w : World) : list Message := omap message_of (chatBox w).

(** The Pending Request Marker is the element carrying the loader's id. *)
Definition is_marker : Element -> bool := has_id "loading-indicator".

Definition count_markers (l : list Element) : nat := length (List.filter is_marker l).

Definition markers (w : World) : nat := count_markers (chatBox w).

(** The element [appendMessage] builds for a text and a class. *)
Definition message_element (cls t : string) : Element :=
  {| className := "message " +:+ cls; content := InnerText t; id := EmptyString |}.

(** The text a call of sendMessage goes on with (line 39). *)
Definition message_text (manualMsg : option string) (w : World) : string :=
  if truthy (js_of manualMsg) then default EmptyString manualMsg
  else trim (userInput w).

(** The effects a computation added to the trace. *)
Definition appended (fx : list Effect) : list Message :=
  omap (fun e => match e with AppendChild el => message_of el | _ => None end) fx.

Definition requests (fx : list Effect) : list Request :=
  omap (fun e => match e with Fetch r => Some r | _ => None end) fx.

(** ** Notions used to state the properties *)

(** What the [innerText] setter stores for a value, when it stores one. *)
Definition dom_text (v : Value) : option string :=
  match v with
  | VNull => Some EmptyString
  | _ => to_string v
  end.

(** [v.name] where it does not throw. *)
Definition field (v : Value) (name : string) : Value :=
  match v with
  | VObj fields => default VUndefined (own_property name fields)
  | _ => VUndefined
  end.

(** [w] after [appendMessage(t, cls)]. *)
Definition with_message (w : World) (cls t : string) : World :=
  {| chatBox := chatBox w ++ [message_element cls t];
     userInput := userInput w;
     trace := trace w ++ [AppendChild (message_element cls t); ScrollToBottom] |}.

(** [w'] is [w] after one message [m] was appended at the end of the chat
    box, possibly after the marker was taken out, and nothing else. *)
Definition appends_one (w w' : World) (m : Message) (fx : list Effect) : Prop :=
  exists cls,
    message_of (message_element cls (text m)) = Some m
    /\ (chatBox w' = chatBox w ++ [message_element cls (text m)]
        \/ chatBox w' = remove_first is_marker (chatBox w) ++ [message_element cls (text m)])
    /\ userInput w' = userInput w
    /\ trace w' = trace w ++ fx
    /\ appended fx = [m]
    /\ requests fx = [].

(** The outcome of a piece of the try block that either appends its one
    message or throws before touching the page. *)
Definition one_or_throw (r : Result unit) (w : World) : Prop :=
  (exists m fx w',
      r = Ok tt w' /\ appends_one w w' m fx /\ role m <> User
      /\ markers w' = markers w)
  \/ (exists err, r = Throw err w).

(** ** Sample pages *)

(** A page showing nothing, on which nothing has happened yet. *)
Definition blank : World := {| chatBox := []; userInput := EmptyString; trace := [] |}.

(** A chat box in which a request is outstanding. *)
Definition waiting : World :=
  {| chatBox := [message_element "user" "hello"; loader];
     userInput := EmptyString;
     trace := [] |}.

(** A freshly loaded page with every control present, [typed] in the input
    field and [quick] the data-msg attributes of its quick replies. *)
Definition idle (typed : string) (quick : list (option string)) : Session :=
  {| sendBtn := true; clearBtn := true; quickReplies := quick;
     world := {| chatBox := [message_element "bot" welcome];
                 userInput := typed;
                 trace := [] |};
     tasks := [] |}.

(** The login page: no chat box, no input field, no chat control. *)
Definition login_page : Document :=
  {| doc_chatBox := None; doc_userInput := None;
     doc_sendBtn := false; doc_clearBtn := false; doc_quickReplies := [] |}.

(** The chat page as served: an empty chat box, an empty input field, both
    buttons and two quick replies. *)
Definition chat_page : Document :=
  {| doc_chatBox := Some []; doc_userInput := Some EmptyString;
     doc_sendBtn := true; doc_clearBtn := true;
     doc_quickReplies := [Some "Track my ticket"; Some "Talk to an agent"] |}.

Definition chat_session : Session :=
  match DOMContentLoaded chat_page with
  | Attached s => s
  | Skipped _ => idle EmptyString []
  end.

(** Two sends overlap, the first response arrives, a third send follows. *)
Definition overlapping : list Event :=
  [TypeText "hello"; ClickSend; ClickQuickReply 0;
   FetchSettled 0 (Fulfilled tt); Keypress "Enter"; ClickQuickReply 1].

(** ** Counting over a trace *)

Definition is_user (m : Message) : bool :=
  match role m with
  | User => true
  | _ => false
  end.

(** The texts of the user messages appended, the number of other messages
    appended, and the number of times the chat box was emptied. *)
Definition user_texts (fx : list Effect) : list string :=
  map text (List.filter is_user (appended fx)).

Definition answers (fx : list Effect) : nat :=
  length (List.filter (fun m => negb (is_user m)) (appended fx)).

Definition is_clear (e : Effect) : bool :=
  match e with
  | ClearChildren => true
  | _ => false
  end.

Definition clears (fx : list Effect) : nat := length (List.filter is_clear fx).

(** What [hideLoading] adds to the trace. *)
Definition hide_fx (w : World) : list Effect :=
  match find is_marker (chatBox w) with
  | Some l => [RemoveChild l]
  | None => []
  end.

(** [s'] is [s] after the effects [fx], all of them accounted for: every
    request goes with a user message of the same text; every request is
    outstanding or has been closed by one message; unless the chat box was
    emptied, the conversation has grown by exactly the messages appended; and
    the input field was written, if at all, with the empty string. *)
Definition accounted (s s' : Session) (fx : list Effect) : Prop :=
  trace (world s') = trace (world s) ++ fx
  /\ requests fx = map request_for (user_texts fx)
  /\ answers fx + length (tasks s') = clears fx + length (requests fx) + length (tasks s)
  /\ (clears fx = 0 -> conversation (world s') = conversation (world s) ++ appended fx)
  /\ (forall v, In (SetInputValue v) fx -> v = EmptyString).

(** ** The project configuration script (static/src/js/project_configuration.js) *)

(** String.prototype.toUpperCase on a code unit below 256, as the code units
    of the result: the letters a to z and the accented lower-case letters
    move down by 32, the sharp s becomes two capital S, and the micro sign
    and the y with diaeresis leave the range. *)
Definition upper_units (c : ascii) : list N :=
  let n := N_of_ascii c in
  if (97 <=? n)%N && (n <=? 122)%N then [(n - 32)%N]
  else if (n =? 181)%N then [924%N]
  else if (n =? 223)%N then [83%N; 83%N]
  else if (n =? 247)%N then [n]
  else if (224 <=? n)%N && (n <=? 254)%N then [(n - 32)%N]
  else if (n =? 255)%N then [376%N]
  else [n].

Definition toUpperCase (s : string) : list N :=
  flat_map upper_units (list_ascii_of_string s).

(** The class A-Z0-9- of the regular expression at line 45. *)
Definition key_unit (n : N) : bool :=
  ((65 <=? n)%N && (n <=? 90)%N) || ((48 <=? n)%N && (n <=? 57)%N) || (n =? 45)%N.

(** Lines 43-45: what the input listener stores back into #project_key. *)
Definition project_key (value : string) : string :=
  string_of_list_ascii (map ascii_of_N (List.filter key_unit (toUpperCase value))).

(** Lines 61-65: the custom validity the change listener gives #end_date,
    the empty string standing for valid.  The comparison is the one of
    strings, code unit by code unit. *)
Definition end_date_validity (start_value end_value : string) : string :=
  if truthy (VStr start_value) && String.ltb end_value start_value
  then "End date must be after start date"
  else EmptyString.

(** The value of a date input: year, month and day in decimal, the year on
    four digits. *)
Definition digit (n : nat) : ascii := ascii_of_nat (48 + n mod 10).

Definition two_digits (n : nat) (rest : string) : string :=
  String (digit (n / 10)) (String (digit n) rest).

Definition iso_date (y m d : nat) : string :=
  String (digit (y / 1000)) (String (digit (y / 100))
    (two_digits y (String "-" (two_digits m (String "-" (two_digits d EmptyString)))))).

(** Earlier in the calendar. *)
Definition earlier (y1 m1 d1 y2 m2 d2 : nat) : Prop :=
  y1 < y2 \/ (y1 = y2 /\ (m1 < m2 \/ (m1 = m2 /\ d1 < d2))).

(** ** The login script (togglePassword) *)

(** What togglePassword looks up: the type of #password and the class list
    of the first i element under .password-toggle-btn, when they exist. *)
Record LoginPage := {
  passwordField : option string;
  toggleIcon : option (list string)
}.

(** DOMTokenList.remove and DOMTokenList.add on the ordered set of classes. *)
Definition classList_remove (token : string) (classes : list string) : list string :=
  List.filter (fun c => negb (String.eqb c token)) classes.

Definition classList_add (token : string) (classes : list string) : list string :=
  if existsb (String.eqb token) classes then classes else classes ++ [token].

Inductive Outcome :=
| Returned (p : LoginPage)
| Raised (e : Error) (p : LoginPage).

(** Lines 1-14.  The reads of [type] and [classList] throw on a missing
    element; the second comes after the type has been written. *)
Definition togglePassword (p : LoginPage) : Outcome :=
  match passwordField p with
  | None => Raised (null_read_error "null" "type") p
  | Some type =>
      if String.eqb type "password" then
        let p1 := {| passwordField := Some "text"; toggleIcon := toggleIcon p |} in
        match toggleIcon p with
        | None => Raised (null_read_error "null" "classList") p1
        | Some classes =>
            Returned {| passwordField := Some "text";
                        toggleIcon :=
                          Some (classList_add "bi-eye-slash-fill"
                                  (classList_remove "bi-eye-fill" classes)) |}
        end
      else
        let p1 := {| passwordField := Some "password"; toggleIcon := toggleIcon p |} in
        match toggleIcon p with
        | None => Raised (null_read_error "null" "classList") p1
        | Some classes =>
            Returned {| passwordField := Some "password";
                        toggleIcon :=
                          Some (classList_add "bi-eye-fill"
                                  (classList_remove "bi-eye-slash-fill" classes)) |}
        end
  end.

Definition page_of (o : Outcome) : LoginPage :=
  match o with Returned p | Raised _ p => p end.

(** ** Notions used to state the further properties *)

(** The effects of a piece that closes an exchange: one message that is not
    a user message, no request, no emptying, no write to the input field. *)
Definition closing (fx : list Effect) (m : Message) : Prop :=
  appended fx = [m] /\ is_user m = false /\ requests fx = [] /\ clears fx = 0
  /\ forall v, ~ In (SetInputValue v) fx.

(** What a call of sendMessage with a text to send adds to the trace. *)
Definition begin_fx (manualMsg : option string) (w : World) : list Effect :=
  [AppendChild (message_element "user" (message_text manualMsg w)); ScrollToBottom]
  ++ (if truthy (js_of manualMsg) then [] else [SetInputValue EmptyString])
  ++ (if Nat.eqb (markers w) 0 then [AppendChild loader; ScrollToBottom] else [])
  ++ [Fetch (request_for (message_text manualMsg w))].

(** Anything but an object. *)
Definition not_object (v : Value) : Prop :=
  match v with
  | VObj _ => False
  | _ => True
  end.

(** The icon shows what the field's type is: the open eye for a password
    field, the struck eye for a text field. *)
Definition icon_matches (p : LoginPage) : Prop :=
  exists type classes,
    passwordField p = Some type /\ toggleIcon p = Some classes
    /\ (type = "password" \/ type = "text")
    /\ (In "bi-eye-fill" classes <-> type = "password")
    /\ (In "bi-eye-slash-fill" classes <-> type = "text").

(** The suspended calls whose request has not settled yet. *)
Definition is_fetching (t : Task) : bool :=
  match t with
  | AwaitingFetch _ => true
  | AwaitingJson => false
  end.

Definition fetching (ts : list Task) : nat := length (List.filter is_fetching ts).

(** * Properties *)

(** ** The helpers *)

Lemma appendMessage_text (t cls : string) (w : World) :
  appendMessage (VStr t) cls w =
  Ok tt {| chatBox := chatBox w ++ [message_element cls t];
           userInput := userInput w;
           trace := trace w ++ [AppendChild (message_element cls t); ScrollToBottom] |}.
Proof.
  unfold appendMessage, bind, appendChild, effect, dom_string, ret; simpl.
  rewrite <- app_assoc. reflexivity.
Qed.

Lemma find_marker_id (l : list Element) (e : Element) :
  find (has_id "loading-indicator") l = Some e -> has_id (id e) = is_marker.
Proof.
  intros H. apply find_some in H as [_ H].
  unfold has_id in H. apply String.eqb_eq in H. rewrite H. reflexivity.
Qed.

Lemma remove_first_absent (p : Element -> bool) (l : list Element) :
  find p l = None -> remove_first p l = l.
Proof.
  induction l as [|e l IH]; simpl; [reflexivity|].
  destruct (p e); [discriminate|]. intros H. rewrite IH by exact H. reflexivity.
Qed.

Lemma find_marker_none (l : list Element) :
  find is_marker l = None <-> count_markers l = 0.
Proof.
  unfold count_markers. induction l as [|e l IH]; simpl; [tauto|].
  destruct (is_marker e); simpl; [split; discriminate | exact IH].
Qed.

Lemma count_markers_app (l1 l2 : list Element) :
  count_markers (l1 ++ l2) = count_markers l1 + count_markers l2.
Proof. unfold count_markers. rewrite List.filter_app, length_app. reflexivity. Qed.

Lemma count_markers_remove_first (l : list Element) :
  count_markers (remove_first is_marker l) = pred (count_markers l).
Proof.
  unfold count_markers. induction l as [|e l IH]; simpl; [reflexivity|].
  destruct (is_marker e) eqn:E; simpl; [reflexivity|]. rewrite E. exact IH.
Qed.

Lemma message_element_not_marker (cls t : string) :
  is_marker (message_element cls t) = false.
Proof. reflexivity. Qed.

(** [hideLoading] removes the first marker and touches nothing else; it
    never throws. *)
Lemma hideLoading_spec (w : World) :
  exists fx,
    hideLoading w =
    Ok tt {| chatBox := remove_first is_marker (chatBox w);
             userInput := userInput w;
             trace := trace w ++ fx |}
    /\ appended fx = [] /\ requests fx = []
    /\ (markers w = 0 -> fx = []).
Proof.
  unfold hideLoading, bind, getElementById.
  destruct (find (has_id "loading-indicator") (chatBox w)) as [e|] eqn:F.
  - exists [RemoveChild e]. unfold remove. rewrite (find_marker_id _ _ F).
    repeat split; try reflexivity.
    intros Hm. apply find_marker_none in Hm. unfold is_marker in Hm. congruence.
  - exists []. change (find is_marker (chatBox w) = None) in F.
    rewrite (remove_first_absent _ _ F), app_nil_r.
    destruct w; repeat split; reflexivity.
Qed.

Lemma hideLoading_absent (w : World) : markers w = 0 -> hideLoading w = Ok tt w.
Proof.
  intros Hm. apply find_marker_none in Hm.
  unfold hideLoading, bind, getElementById. unfold is_marker in Hm. rewrite Hm.
  reflexivity.
Qed.

Lemma showLoading_present (w : World) : 1 <= markers w -> showLoading w = Ok tt w.
Proof.
  intros Hm. unfold showLoading, bind, getElementById.
  destruct (find (has_id "loading-indicator") (chatBox w)) eqn:F; [reflexivity|].
  apply find_marker_none in F. unfold markers in Hm. lia.
Qed.

Lemma showLoading_absent (w : World) :
  markers w = 0 ->
  showLoading w =
  Ok tt {| chatBox := chatBox w ++ [loader]; userInput := userInput w;
           trace := trace w ++ [AppendChild loader; ScrollToBottom] |}.
Proof.
  intros Hm. apply find_marker_none in Hm.
  unfold showLoading, bind, getElementById. unfold is_marker in Hm. rewrite Hm.
  unfold appendChild, effect; simpl. rewrite <- app_assoc. reflexivity.
Qed.

Lemma appendMessage_value (v : Value) (cls : string) (w : World) :
  appendMessage v cls w =
  match dom_text v with
  | Some t => Ok tt {| chatBox := chatBox w ++ [message_element cls t];
                       userInput := userInput w;
                       trace := trace w ++ [AppendChild (message_element cls t); ScrollToBottom] |}
  | None => Throw to_primitive_error w
  end.
Proof.
  unfold appendMessage, bind, dom_string, dom_text, appendChild, effect, ret, throw.
  destruct v; try destruct (to_string _); simpl;
    rewrite <- ?app_assoc; reflexivity.
Qed.

Lemma dom_text_truthy (v : Value) : truthy v = true -> dom_text v = to_string v.
Proof. destruct v; simpl; congruence. Qed.

Lemma appended_app (fx1 fx2 : list Effect) :
  appended (fx1 ++ fx2) = appended fx1 ++ appended fx2.
Proof. apply omap_app. Qed.

Lemma requests_app (fx1 fx2 : list Effect) :
  requests (fx1 ++ fx2) = requests fx1 ++ requests fx2.
Proof. apply omap_app. Qed.

Lemma conversation_remove_marker (l : list Element) :
  omap message_of (remove_first is_marker l) = omap message_of l.
Proof.
  induction l as [|e l IH]; [reflexivity|].
  cbn [remove_first]. destruct (is_marker e) eqn:E.
  - cbn [omap list_omap]. unfold message_of at 2. unfold is_marker in E. rewrite E.
    destruct (content e); reflexivity.
  - cbn [omap list_omap]. rewrite <- IH. reflexivity.
Qed.

Lemma appends_one_conversation w w' m fx :
  appends_one w w' m fx -> conversation w' = conversation w ++ [m].
Proof.
  intros (cls & Hm & [Hc|Hc] & _). all: unfold conversation; rewrite Hc, omap_app.
  2: rewrite conversation_remove_marker.
  all: simpl; rewrite Hm; reflexivity.
Qed.

Lemma appends_one_markers w w' m fx :
  appends_one w w' m fx -> markers w' <= markers w.
Proof.
  intros (cls & _ & [Hc|Hc] & _); unfold markers; rewrite Hc, count_markers_app.
  2: rewrite count_markers_remove_first.
  all: change (count_markers [message_element cls (text m)]) with 0; lia.
Qed.

(** The catch block: the marker goes, one error message comes. *)
Lemma sendMessage_catch_spec (err : Error) (w : World) :
  exists w' fx,
    sendMessage_catch err w = Ok tt w'
    /\ appends_one w w' {| role := Err; text := "Error: " +:+ message err |} fx
    /\ chatBox w' = remove_first is_marker (chatBox w)
                      ++ [message_element "err" ("Error: " +:+ message err)].
Proof.
  unfold sendMessage_catch, bind.
  destruct (hideLoading_spec w) as (fx & -> & Ha & Hr & _).
  rewrite appendMessage_text. unfold effect; simpl.
  eexists _, (fx ++ [AppendChild (message_element "err" ("Error: " +:+ message err));
                     ScrollToBottom;
                     ConsoleError "Chat error:" (message err)]).
  split; [reflexivity|]. split; [|reflexivity].
  exists "err"; simpl. repeat split.
  - right; reflexivity.
  - rewrite <- !app_assoc. reflexivity.
  - rewrite appended_app, Ha. reflexivity.
  - rewrite requests_app, Hr. reflexivity.
Qed.

Lemma sendMessage_catch_markers (err : Error) (w : World) :
  markers (world_of (sendMessage_catch err w)) = pred (markers w).
Proof.
  destruct (sendMessage_catch_spec err w) as (w' & fx & -> & _ & Hc); simpl.
  unfold markers. rewrite Hc, count_markers_app, count_markers_remove_first.
  change (count_markers [_]) with 0. lia.
Qed.

(** ** The pieces of sendMessage *)

Lemma get_field (v : Value) (name : string) (w : World) :
  v <> VNull -> v <> VUndefined -> get v name w = Ok (field v name) w.
Proof. destruct v; intros; try congruence; reflexivity. Qed.

Lemma get_field_truthy (v : Value) (name : string) (w : World) :
  truthy v = true -> get v name w = Ok (field v name) w.
Proof. intros H. apply get_field; intros ->; discriminate. Qed.

Lemma appendMessage_one_or_throw (v : Value) (cls : string) (w : World) :
  cls = "bot" \/ cls = "err" -> one_or_throw (appendMessage v cls w) w.
Proof.
  intros Hcls. rewrite appendMessage_value.
  destruct (dom_text v) as [t|]; [left | right; eexists; reflexivity].
  exists {| role := if String.eqb cls "bot" then Bot else Err; text := t |}.
  eexists _, _. split; [reflexivity|].
  split; [|split].
  - exists cls. simpl. repeat split; try reflexivity.
    + destruct Hcls as [-> | ->]; reflexivity.
    + left; reflexivity.
    + destruct Hcls as [-> | ->]; reflexivity.
  - destruct Hcls as [-> | ->]; discriminate.
  - unfold markers; simpl. rewrite count_markers_app.
    change (count_markers [_]) with 0. lia.
Qed.

Lemma concat_eq (prefix : string) (v : Value) (w : World) :
  concat prefix v w =
  match to_string v with
  | Some s => Ok (VStr (prefix +:+ s)) w
  | None => Throw to_primitive_error w
  end.
Proof. unfold concat. destruct (to_string v); reflexivity. Qed.

(** Lines 60-72 with the property reads resolved, for a response other
    than null. *)
Lemma render_eq (data : Value) (w : World) :
  data <> VNull -> data <> VUndefined ->
  render data w =
  let result := field data "result" in
  if truthy result then
    if truthy (field result "reply") then appendMessage (field result "reply") "bot" w
    else if truthy (field result "error") then
      match to_string (field result "error") with
      | Some s => appendMessage (VStr ("Error: " +:+ s)) "err" w
      | None => Throw to_primitive_error w
      end
    else appendMessage (VStr "Error: Unexpected response format") "err" w
  else
    if truthy (field data "error") then
      match to_string (field (field data "error") "message") with
      | Some s => appendMessage (VStr ("Error: " +:+ s)) "err" w
      | None => Throw to_primitive_error w
      end
    else appendMessage (VStr "Error: Could not get response") "err" w.
Proof.
  intros Hn Hu. unfold render, bind. rewrite (get_field _ _ _ Hn Hu). cbv zeta.
  destruct (truthy (field data "result")) eqn:Tr.
  - rewrite (get_field_truthy _ _ _ Tr).
    destruct (truthy (field (field data "result") "reply")); [reflexivity|].
    rewrite (get_field_truthy _ _ _ Tr).
    destruct (truthy (field (field data "result") "error")); [|reflexivity].
    rewrite concat_eq. destruct (to_string _); reflexivity.
  - rewrite (get_field _ _ _ Hn Hu).
    destruct (truthy (field data "error")) eqn:Te; [|reflexivity].
    rewrite (get_field_truthy _ _ _ Te), concat_eq.
    destruct (to_string _); reflexivity.
Qed.

Lemma render_one_or_throw (data : Value) (w : World) : one_or_throw (render data w) w.
Proof.
  assert (data = VNull \/ data = VUndefined \/ (data <> VNull /\ data <> VUndefined))
    as [-> | [-> | [Hn Hu]]]
    by (destruct data; auto; right; right; split; discriminate).
  1, 2: right; eexists; reflexivity.
  rewrite render_eq by assumption. cbv zeta.
  repeat match goal with
         | |- context [if ?b then _ else _] => destruct b
         | |- context [match to_string ?v with _ => _ end] => destruct (to_string v)
         end;
    try (apply appendMessage_one_or_throw; tauto);
    right; eexists; reflexivity.
Qed.

(** Resumed on the outcome of [res.json()], sendMessage appends exactly one
    message, of role bot or error, and lets no exception out. *)
Lemma sendMessage_on_json_spec (data : Settled Value) (w : World) :
  exists m fx w',
    sendMessage_on_json data w = Ok tt w'
    /\ appends_one w w' m fx /\ role m <> User /\ markers w' <= markers w.
Proof.
  assert (Hcatch : forall err, exists m fx w',
             sendMessage_catch err w = Ok tt w'
             /\ appends_one w w' m fx /\ role m <> User /\ markers w' <= markers w).
  { intros err. destruct (sendMessage_catch_spec err w) as (w' & fx & E & Ha & _).
    eexists _, fx, w'. split; [exact E|]. split; [exact Ha|].
    split; [discriminate | eapply appends_one_markers; exact Ha]. }
  destruct data as [d|err]; [|apply Hcatch].
  unfold sendMessage_on_json, try_catch.
  destruct (render_one_or_throw d w) as [(m & fx & w' & -> & Ha & Hr & Hm)|(err & ->)];
    [|apply Hcatch].
  exists m, fx, w'. repeat split; try assumption. lia.
Qed.

(** Resumed on the outcome of [fetch]: a response takes the marker out and
    suspends again; a failure goes to the catch block. *)
Lemma sendMessage_on_fetch_fulfilled (u : unit) (w : World) :
  exists fx,
    sendMessage_on_fetch (Fulfilled u) w =
    Ok true {| chatBox := remove_first is_marker (chatBox w);
               userInput := userInput w;
               trace := trace w ++ fx |}
    /\ appended fx = [] /\ requests fx = [] /\ (markers w = 0 -> fx = []).
Proof.
  unfold sendMessage_on_fetch, try_catch, bind.
  destruct (hideLoading_spec w) as (fx & -> & Ha & Hr & H0).
  exists fx. repeat split; assumption.
Qed.

Lemma sendMessage_on_fetch_rejected (err : Error) (w : World) :
  exists w' fx,
    sendMessage_on_fetch (Rejected err) w = Ok false w'
    /\ appends_one w w' {| role := Err; text := "Error: " +:+ message err |} fx
    /\ chatBox w' = remove_first is_marker (chatBox w)
                      ++ [message_element "err" ("Error: " +:+ message err)].
Proof.
  unfold sendMessage_on_fetch, bind.
  destruct (sendMessage_catch_spec err w) as (w' & fx & -> & Ha & Hc).
  exists w', fx. repeat split; assumption.
Qed.

Lemma markers_append_message (w : World) (cls t u : string) (tr : list Effect) :
  markers {| chatBox := chatBox w ++ [message_element cls t];
             userInput := u; trace := tr |} = markers w.
Proof.
  unfold markers; simpl. rewrite count_markers_app.
  change (count_markers [_]) with 0. lia.
Qed.

Lemma truthy_text_eqb (t : string) : negb (truthy (VStr t)) = String.eqb t EmptyString.
Proof. simpl. apply negb_involutive. Qed.

(** Called with nothing to send, sendMessage returns at line 40. *)
Lemma sendMessage_begin_empty (manualMsg : option string) (w : World) :
  message_text manualMsg w = EmptyString -> sendMessage_begin manualMsg w = Ok None w.
Proof.
  unfold message_text, sendMessage_begin, bind.
  destruct (truthy (js_of manualMsg)); unfold ret, getInputValue; intros ->; reflexivity.
Qed.

(** Called with something to send, it appends the user message, clears the
    input when the text came from there, shows the marker unless one is
    showing, and issues the request. *)
Lemma sendMessage_begin_spec (manualMsg : option string) (w : World) :
  let msg := message_text manualMsg w in
  msg <> EmptyString ->
  exists mid,
    sendMessage_begin manualMsg w =
    Ok (Some (request_for msg))
       {| chatBox := chatBox w ++ message_element "user" msg
                       :: (if Nat.eqb (markers w) 0 then [loader] else []);
          userInput := if truthy (js_of manualMsg) then userInput w else EmptyString;
          trace := trace w ++ AppendChild (message_element "user" msg)
                     :: mid ++ [Fetch (request_for msg)] |}
    /\ appended mid = [] /\ requests mid = []
    /\ (In (SetInputValue EmptyString) mid <-> truthy (js_of manualMsg) = false).
Proof.
  intros msg Hne. subst msg. unfold message_text in *.
  assert (Hshow : forall w1, markers w1 = markers w ->
            showLoading w1 =
            Ok tt {| chatBox := chatBox w1 ++ (if Nat.eqb (markers w) 0 then [loader] else []);
                     userInput := userInput w1;
                     trace := trace w1 ++ (if Nat.eqb (markers w) 0
                                           then [AppendChild loader; ScrollToBottom]
                                           else []) |}).
  { intros w1 E. destruct (Nat.eqb_spec (markers w) 0) as [Z|NZ].
    - apply showLoading_absent; lia.
    - rewrite !app_nil_r. rewrite showLoading_present by lia. destruct w1; reflexivity. }
  unfold sendMessage_begin, bind.
  destruct (truthy (js_of manualMsg)) eqn:T; unfold ret, getInputValue;
    rewrite truthy_text_eqb;
    match goal with
    | |- context [String.eqb ?t EmptyString] =>
        destruct (String.eqb_spec t EmptyString) as [E|_]; [contradiction|]
    end;
    rewrite appendMessage_text; simpl.
  - rewrite Hshow by apply markers_append_message.
    unfold fetch, effect; simpl.
    exists (ScrollToBottom :: (if Nat.eqb (markers w) 0
                               then [AppendChild loader; ScrollToBottom] else [])).
    split; [|destruct (Nat.eqb (markers w) 0); repeat split; simpl;
             intuition (discriminate || congruence)].
    rewrite <- !app_assoc. reflexivity.
  - unfold setInputValue; simpl.
    rewrite Hshow by apply markers_append_message.
    unfold fetch, effect; simpl.
    exists (ScrollToBottom :: SetInputValue EmptyString
              :: (if Nat.eqb (markers w) 0 then [AppendChild loader; ScrollToBottom] else [])).
    split; [|destruct (Nat.eqb (markers w) 0); repeat split; simpl; auto].
    rewrite <- !app_assoc. reflexivity.
Qed.

(** ** Interpreting the response *)

Lemma sendMessage_on_json_render (data : Value) (w w' : World) :
  render data w = Ok tt w' -> sendMessage_on_json (Fulfilled data) w = Ok tt w'.
Proof. unfold sendMessage_on_json, try_catch. intros ->. reflexivity. Qed.

(** C1 (as stated, refuted).  A result object can have a [reply] field
    without the reply being shown: the script tests the field for truthiness
    (line 61), so for the response whose result is the object with reply the
    empty string it appends the generic format error, not a bot message with
    the empty text. *)
Lemma reply_field_counterexample :
  let result := [("reply", VStr EmptyString)] in
  let data := VObj [("result", VObj result)] in
  own_property "reply" result = Some (VStr EmptyString)
  /\ conversation (world_of (sendMessage_on_json (Fulfilled data) blank))
     = [{| role := Err; text := "Error: Unexpected response format" |}]
  /\ conversation (world_of (sendMessage_on_json (Fulfilled data) blank))
     <> [{| role := Bot; text := EmptyString |}].
Proof. repeat split. vm_compute. discriminate. Qed.

(** C1 (amended).  For every response whose [result.reply] is truthy (for a
    string: not empty) and has the text [t] as its string conversion (for a
    string: itself), sendMessage appends exactly the message of role bot and
    text [t]. *)
Theorem reply_rendered (w : World) (data : Value) (t : string) :
  truthy (field (field data "result") "reply") = true ->
  to_string (field (field data "result") "reply") = Some t ->
  sendMessage_on_json (Fulfilled data) w = Ok tt (with_message w "bot" t)
  /\ message_of (message_element "bot" t) = Some {| role := Bot; text := t |}
  /\ (forall s, field (field data "result") "reply" = VStr s -> t = s).
Proof.
  intros Hreply Ht.
  assert (Hresult : truthy (field data "result") = true).
  { destruct (field data "result"); try discriminate; reflexivity. }
  assert (Hn : data <> VNull /\ data <> VUndefined)
    by (split; intros ->; discriminate).
  split; [|split; [reflexivity|]].
  - apply sendMessage_on_json_render.
    rewrite render_eq by tauto. cbv zeta. rewrite Hresult, Hreply.
    rewrite appendMessage_value, (dom_text_truthy _ Hreply), Ht. reflexivity.
  - intros s E. rewrite E in Ht. simpl in Ht. congruence.
Qed.

Lemma reply_rendered_witness :
  let data := VObj [("result", VObj [("reply", VStr "Hi")])] in
  sendMessage_on_json (Fulfilled data) blank = Ok tt (with_message blank "bot" "Hi")
  /\ conversation (with_message blank "bot" "Hi") = [{| role := Bot; text := "Hi" |}].
Proof.
  split; [|reflexivity].
  apply (reply_rendered blank (VObj [("result", VObj [("reply", VStr "Hi")])]) "Hi");
    reflexivity.
Defined.

(** C2 (as stated, refuted).  A result object can carry an [error] field
    without that error being shown: the field is tested for truthiness
    (line 63), so the result whose error is the empty string gets the generic
    format error rather than the text made of the prefix and the error. *)
Lemma error_field_counterexample :
  let result := [("error", VStr EmptyString)] in
  let data := VObj [("result", VObj result)] in
  own_property "reply" result = None
  /\ own_property "error" result = Some (VStr EmptyString)
  /\ conversation (world_of (sendMessage_on_json (Fulfilled data) blank))
     = [{| role := Err; text := "Error: Unexpected response format" |}]
  /\ conversation (world_of (sendMessage_on_json (Fulfilled data) blank))
     <> [{| role := Err; text := "Error: " +:+ EmptyString |}].
Proof. repeat split. vm_compute. discriminate. Qed.

(** C2 (amended).  For every parsed response other than null, once
    [result.reply] is not truthy: a truthy result with a truthy [error] of
    text [s] gives the error message with the prefix and [s]; a truthy
    result with no truthy [error] gives the generic format error; with no
    truthy result, a truthy top-level [error] whose [message] has text [s]
    gives the error message with the prefix and [s]; otherwise the generic
    no-response error is given.  The two generic texts differ. *)
Theorem response_precedence (w : World) (data : Value) :
  data <> VNull -> data <> VUndefined ->
  let result := field data "result" in
  let out := sendMessage_on_json (Fulfilled data) w in
  (truthy result = true -> truthy (field result "reply") = false ->
   truthy (field result "error") = true ->
   forall s, to_string (field result "error") = Some s ->
   out = Ok tt (with_message w "err" ("Error: " +:+ s)))
  /\ (truthy result = true -> truthy (field result "reply") = false ->
      truthy (field result "error") = false ->
      out = Ok tt (with_message w "err" "Error: Unexpected response format"))
  /\ (truthy result = false -> truthy (field data "error") = true ->
      forall s, to_string (field (field data "error") "message") = Some s ->
      out = Ok tt (with_message w "err" ("Error: " +:+ s)))
  /\ (truthy result = false -> truthy (field data "error") = false ->
      out = Ok tt (with_message w "err" "Error: Could not get response"))
  /\ message_of (message_element "err" "x") = Some {| role := Err; text := "x" |}
  /\ "Error: Unexpected response format" <> "Error: Could not get response".
Proof.
  intros Hn Hu result out. subst result out.
  repeat split; try discriminate; intros;
    apply sendMessage_on_json_render; rewrite render_eq by assumption; cbv zeta;
    repeat match goal with H : truthy _ = _ |- _ => rewrite H; clear H end;
    repeat match goal with H : to_string _ = _ |- _ => rewrite H; clear H end;
    apply appendMessage_text.
Qed.

Lemma response_precedence_witness :
  sendMessage_on_json (Fulfilled (VObj [("result", VObj [("error", VStr "bad input")])])) blank
  = Ok tt (with_message blank "err" "Error: bad input")
  /\ sendMessage_on_json (Fulfilled (VObj [("result", VObj [])])) blank
     = Ok tt (with_message blank "err" "Error: Unexpected response format")
  /\ sendMessage_on_json (Fulfilled (VObj [("error", VObj [("message", VStr "down")])])) blank
     = Ok tt (with_message blank "err" "Error: down")
  /\ sendMessage_on_json (Fulfilled (VObj [])) blank
     = Ok tt (with_message blank "err" "Error: Could not get response").
Proof.
  split; [|split; [|split]].
  - pose proof (response_precedence blank
                  (VObj [("result", VObj [("error", VStr "bad input")])])
                  ltac:(discriminate) ltac:(discriminate)) as H.
    cbv zeta in H. destruct H as (T & _). apply T; reflexivity.
  - pose proof (response_precedence blank (VObj [("result", VObj [])])
                  ltac:(discriminate) ltac:(discriminate)) as H.
    cbv zeta in H. destruct H as (_ & T & _). apply T; reflexivity.
  - pose proof (response_precedence blank
                  (VObj [("error", VObj [("message", VStr "down")])])
                  ltac:(discriminate) ltac:(discriminate)) as H.
    cbv zeta in H. destruct H as (_ & _ & T & _). apply T; reflexivity.
  - pose proof (response_precedence blank (VObj [])
                  ltac:(discriminate) ltac:(discriminate)) as H.
    cbv zeta in H. destruct H as (_ & _ & _ & T & _). apply T; reflexivity.
Defined.

(** ** Transport failures *)

Lemma markers_after_catch (w w' : World) (t : string) :
  chatBox w' = remove_first is_marker (chatBox w) ++ [message_element "err" t] ->
  markers w' = pred (markers w).
Proof.
  intros Hc. unfold markers. rewrite Hc, count_markers_app, count_markers_remove_first.
  change (count_markers [_]) with 0. lia.
Qed.

Lemma sendMessage_catch_clears (err : Error) (w : World) :
  markers w <= 1 ->
  exists w' fx,
    sendMessage_catch err w = Ok tt w'
    /\ appends_one w w' {| role := Err; text := "Error: " +:+ message err |} fx
    /\ markers w' = 0.
Proof.
  intros Hm. destruct (sendMessage_catch_spec err w) as (w' & fx & E & Ha & Hc).
  exists w', fx. split; [exact E|]. split; [exact Ha|].
  rewrite (markers_after_catch _ _ _ Hc). lia.
Qed.

(** An exchange that nothing interrupts: the user message, then the message
    that closes the exchange; and the marker was taken out on the way. *)
Lemma sendMessage_uninterrupted (manualMsg : option string)
      (exchange : Settled (Settled Value)) (w : World) :
  message_text manualMsg w <> EmptyString ->
  exists w' m,
    sendMessage manualMsg exchange w = Ok tt w'
    /\ markers w' <= pred (Nat.max 1 (markers w))
    /\ conversation w'
       = conversation w ++ [{| role := User; text := message_text manualMsg w |}; m]
    /\ role m <> User
    /\ (forall err,
          exchange = Rejected err \/ exchange = Fulfilled (Rejected err) ->
          m = {| role := Err; text := "Error: " +:+ message err |}).
Proof.
  intros Hne. unfold sendMessage, bind.
  destruct (sendMessage_begin_spec manualMsg w Hne) as (mid & -> & _).
  set (w1 := {| chatBox := _; userInput := _; trace := _ |}).
  set (user := {| role := User; text := message_text manualMsg w |}).
  assert (M1 : markers w1 = Nat.max 1 (markers w)).
  { unfold markers, w1; cbn [chatBox]. rewrite count_markers_app.
    change (count_markers (?e :: ?l)) with (count_markers l).
    fold (markers w). destruct (Nat.eqb_spec (markers w) 0) as [Z|NZ].
    - rewrite Z. reflexivity.
    - change (count_markers []) with 0. lia. }
  assert (C1 : conversation w1 = conversation w ++ [user]).
  { unfold conversation, w1; cbn [chatBox]. rewrite omap_app.
    destruct (Nat.eqb (markers w) 0); reflexivity. }
  assert (Hclose : forall wx err,
             conversation wx = conversation w ++ [user] ->
             exists w',
               sendMessage_catch err wx = Ok tt w'
               /\ markers w' = pred (markers wx)
               /\ conversation w'
                  = conversation w
                      ++ [user; {| role := Err; text := "Error: " +:+ message err |}]).
  { intros wx err Cx.
    destruct (sendMessage_catch_spec err wx) as (w' & fx & E & Ha & Hc).
    exists w'. split; [exact E|]. split; [exact (markers_after_catch _ _ _ Hc)|].
    rewrite (appends_one_conversation _ _ _ _ Ha), Cx, <- app_assoc. reflexivity. }
  destruct exchange as [body|err].
  - destruct (sendMessage_on_fetch_fulfilled tt w1) as (fx & -> & _).
    set (w2 := {| chatBox := _; userInput := _; trace := _ |}).
    assert (M2 : markers w2 = pred (markers w1)).
    { unfold markers, w2; cbn [chatBox]. apply count_markers_remove_first. }
    assert (C2 : conversation w2 = conversation w ++ [user]).
    { rewrite <- C1. unfold conversation, w2; cbn [chatBox].
      apply conversation_remove_marker. }
    destruct body as [data|err].
    + destruct (sendMessage_on_json_spec (Fulfilled data) w2)
        as (m & fx' & w3 & -> & Ha & Hr & Hle).
      exists w3, m. split; [reflexivity|]. split; [lia|].
      rewrite (appends_one_conversation _ _ _ _ Ha), C2, <- app_assoc.
      split; [reflexivity|]. split; [exact Hr|].
      intros err [H|H]; discriminate.
    + unfold sendMessage_on_json.
      destruct (Hclose w2 err C2) as (w3 & -> & H3 & C3).
      eexists w3, _. split; [reflexivity|]. split; [lia|].
      split; [exact C3|]. split; [discriminate|].
      intros err' [H|H]; [discriminate | congruence].
  - unfold sendMessage_on_fetch, bind.
    destruct (Hclose w1 err C1) as (w' & -> & H' & C').
    eexists w', _. split; [reflexivity|]. split; [lia|].
    split; [exact C'|]. split; [discriminate|].
    intros err' [H|H]; [congruence | discriminate].
Qed.

(** C3 (as stated, refuted).  A marker can show right after a call has
    completed with success.  The marker is taken out when the response
    arrives (line 57), before its body is parsed (line 58); a send made in
    between shows the marker again, and the first call, which then renders
    its reply, leaves that marker where it is. *)
Lemma marker_after_success_counterexample :
  let s := run chat_session
             [TypeText "hello"; ClickSend; FetchSettled 0 (Fulfilled tt); ClickQuickReply 0] in
  let s' := step s (JsonSettled 0 (Fulfilled (VObj [("result", VObj [("reply", VStr "Hi")])]))) in
  tasks s !! 0 = Some AwaitingJson
  /\ conversation (world s') = conversation (world s) ++ [{| role := Bot; text := "Hi" |}]
  /\ tasks s' = delete 0 (tasks s)
  /\ markers (world s') = 1
  /\ markers (world s') <> 0.
Proof. repeat split. vm_compute. discriminate. Qed.

(** C3 (amended).  A failure of the exchange, be it the rejection of [fetch]
    or of [res.json()], never leaves sendMessage as an exception: the call
    appends exactly one message, of role error and with the failure's
    description after the prefix, and no marker remains.  When the exchange
    succeeds, the marker is taken out as soon as the response arrives, and
    the completion of the call, whatever the parsed body, adds none: from
    any page it leaves at most the markers it found, so none if no other
    send has shown one since the response arrived.  A call with a text to
    send that runs its exchange uninterrupted thus ends, however the
    exchange went, with no marker showing. *)
Theorem transport_failure_caught (w : World) (err : Error) :
  markers w <= 1 ->
  let m := {| role := Err; text := "Error: " +:+ message err |} in
  (exists w' fx,
      sendMessage_on_fetch (Rejected err) w = Ok false w'
      /\ appends_one w w' m fx /\ markers w' = 0)
  /\ (exists w' fx,
         sendMessage_on_json (Rejected err) w = Ok tt w'
         /\ appends_one w w' m fx /\ markers w' = 0)
  /\ (exists w1,
         sendMessage_on_fetch (Fulfilled tt) w = Ok true w1
         /\ markers w1 = 0
         /\ forall data, exists w2,
             sendMessage_on_json data w1 = Ok tt w2 /\ markers w2 = 0)
  /\ (forall manualMsg exchange,
         message_text manualMsg w <> EmptyString ->
         exists w' m',
           sendMessage manualMsg exchange w = Ok tt w'
           /\ markers w' = 0
           /\ conversation w'
              = conversation w
                  ++ [{| role := User; text := message_text manualMsg w |}; m']
           /\ (exchange = Rejected err \/ exchange = Fulfilled (Rejected err) -> m' = m))
  /\ (forall w0 data, exists w2,
         sendMessage_on_json data w0 = Ok tt w2 /\ markers w2 <= markers w0).
Proof.
  intros Hm m. split; [|split; [|split; [|split]]].
  - destruct (sendMessage_catch_clears err w Hm) as (w' & fx & E & Ha & H0).
    exists w', fx. unfold sendMessage_on_fetch, bind. rewrite E.
    split; [reflexivity|]. split; assumption.
  - apply sendMessage_catch_clears, Hm.
  - destruct (sendMessage_on_fetch_fulfilled tt w) as (fx & E & _).
    eexists. split; [exact E|].
    assert (H0 : markers {| chatBox := remove_first is_marker (chatBox w);
                           userInput := userInput w; trace := trace w ++ fx |} = 0).
    { unfold markers; simpl. rewrite count_markers_remove_first.
      unfold markers in Hm. lia. }
    split; [exact H0|].
    intros data.
    destruct (sendMessage_on_json_spec data
                {| chatBox := remove_first is_marker (chatBox w);
                   userInput := userInput w; trace := trace w ++ fx |})
      as (m' & fx' & w2 & E2 & _ & _ & Hle).
    exists w2. split; [exact E2 | lia].
  - intros manualMsg exchange Hne.
    destruct (sendMessage_uninterrupted manualMsg exchange w Hne)
      as (w' & m' & E & H0 & Hc & _ & Herr).
    exists w', m'. split; [exact E|]. split; [lia|]. split; [exact Hc|].
    apply Herr.
  - intros w0 data.
    destruct (sendMessage_on_json_spec data w0) as (m' & fx' & w2 & E2 & _ & _ & Hle).
    exists w2. split; [exact E2 | exact Hle].
Qed.

Lemma transport_failure_caught_witness :
  exists w',
    sendMessage None (Rejected {| message := "timeout" |}) (world (idle "hello" []))
    = Ok tt w'
    /\ markers w' = 0
    /\ conversation w'
       = [{| role := Bot; text := welcome |};
          {| role := User; text := "hello" |};
          {| role := Err; text := "Error: timeout" |}].
Proof.
  pose proof (transport_failure_caught (world (idle "hello" [])) {| message := "timeout" |}
                ltac:(vm_compute; lia)) as H.
  cbv zeta in H. destruct H as (_ & _ & _ & H & _).
  destruct (H None (Rejected {| message := "timeout" |}) ltac:(vm_compute; discriminate))
    as (w' & m' & E & H0 & Hc & Hm').
  rewrite (Hm' (or_introl eq_refl)) in Hc.
  exists w'. split; [exact E|]. split; [exact H0 | exact Hc].
Defined.

(** ** Nothing to send *)

(** A value made of white space only trims to the empty string. *)
Lemma trim_blank (v : string) :
  forallb is_white_space (list_ascii_of_string v) = true -> trim v = EmptyString.
Proof.
  intros H. assert (E : trim_start v = EmptyString).
  { induction v as [|c v IH]; [reflexivity|]. simpl in *.
    apply andb_prop in H as [Hc Hv]. rewrite Hc. exact (IH Hv). }
  unfold trim. rewrite E. reflexivity.
Qed.

(** C6.  When the argument is null (or the empty string) and the input
    field's value trims to the empty string, as every value made of white
    space only does, a call of sendMessage changes nothing: the chat box and
    with it the log and the marker, the input field and the suspended calls
    are as before, and no effect at all, in particular no append and no
    fetch, was performed. *)
Theorem empty_input_is_noop (s : Session) (manualMsg : option string) :
  truthy (js_of manualMsg) = false ->
  trim (userInput (world s)) = EmptyString ->
  sendMessage_begin manualMsg (world s) = Ok None (world s)
  /\ call_sendMessage manualMsg s = s
  /\ (forall v, forallb is_white_space (list_ascii_of_string v) = true ->
                trim v = EmptyString).
Proof.
  intros Hm Ht.
  assert (E : sendMessage_begin manualMsg (world s) = Ok None (world s)).
  { apply sendMessage_begin_empty. unfold message_text. rewrite Hm. exact Ht. }
  split; [exact E|]. split; [|exact trim_blank].
  unfold call_sendMessage. rewrite E. destruct s; reflexivity.
Qed.

Lemma empty_input_is_noop_witness :
  step (idle "   " []) ClickSend = idle "   " [].
Proof.
  change (call_sendMessage None (idle "   " []) = idle "   " []).
  apply (empty_input_is_noop (idle "   " []) None eq_refl eq_refl).
Defined.

(** ** Clearing the chat *)

(** C7.  A click on the clear button answered with a refusal changes
    nothing at all.  Answered with a confirmation, it leaves in the chat box
    the one message of role bot that line 98 appends, whatever the chat box
    held before, and so a conversation of exactly that message. *)
Theorem clear_resets_log (s : Session) :
  step s (ClickClear false) = s
  /\ (clearBtn s = true ->
      chatBox (world (step s (ClickClear true))) = [message_element "bot" cleared_greeting]
      /\ conversation (world (step s (ClickClear true)))
         = [{| role := Bot; text := cleared_greeting |}]
      /\ userInput (world (step s (ClickClear true))) = userInput (world s)
      /\ tasks (step s (ClickClear true)) = tasks s).
Proof.
  split.
  - unfold step. destruct (clearBtn s); [|reflexivity].
    destruct s as [? ? ? [] ?]; reflexivity.
  - intros Hb. unfold step. rewrite Hb.
    unfold clear_click, bind, clearChildren. rewrite appendMessage_text.
    split; [reflexivity|]. split; [reflexivity|]. split; reflexivity.
Qed.

Lemma clear_resets_log_witness :
  conversation (world (step (with_world (idle EmptyString []) waiting) (ClickClear true)))
  = [{| role := Bot; text := "Chat cleared. How can I help you?" |}].
Proof.
  apply (clear_resets_log (with_world (idle EmptyString []) waiting)). reflexivity.
Defined.

(** ** Quick replies *)

(** C8 (as stated, refuted).  A quick-reply control whose data-msg is the
    empty string (or is missing) does not bypass the input field: its
    argument is not truthy, so line 39 falls back on the field's value, which
    is sent and then cleared. *)
Lemma quick_reply_counterexample :
  let s := idle "hello" [Some EmptyString] in
  let s' := step s (ClickQuickReply 0) in
  quickReplies s !! 0 = Some (Some EmptyString)
  /\ requests (trace (world s')) = [request_for "hello"]
  /\ userInput (world s) = "hello"
  /\ userInput (world s') = EmptyString
  /\ userInput (world s') <> userInput (world s).
Proof. repeat split. vm_compute. discriminate. Qed.

(** C8 (amended).  A click on a quick-reply control whose data-msg is a
    non-empty text sends exactly that text, whatever the input field holds,
    and leaves the field's value as it was; and whenever a call of
    sendMessage changes the field's value, its argument was not truthy, that
    is, the text came from the field. *)
Theorem quick_reply_bypasses_input (s : Session) (i : nat) (msg : string) :
  quickReplies s !! i = Some (Some msg) ->
  msg <> EmptyString ->
  let s' := step s (ClickQuickReply i) in
  (exists mid,
      trace (world s') = trace (world s) ++ AppendChild (message_element "user" msg)
                           :: mid ++ [Fetch (request_for msg)]
      /\ appended mid = [] /\ requests mid = []
      /\ ~ In (SetInputValue EmptyString) mid)
  /\ tasks s' = tasks s ++ [AwaitingFetch (request_for msg)]
  /\ userInput (world s') = userInput (world s)
  /\ (forall manualMsg w,
         userInput (world_of (sendMessage_begin manualMsg w)) <> userInput w ->
         truthy (js_of manualMsg) = false).
Proof.
  intros Hq Hne s'. subst s'. unfold step. rewrite Hq.
  assert (T : truthy (js_of (Some msg)) = true).
  { simpl. destruct (String.eqb_spec msg EmptyString); [contradiction | reflexivity]. }
  assert (Hmsg : message_text (Some msg) (world s) = msg).
  { unfold message_text. rewrite T. reflexivity. }
  destruct (sendMessage_begin_spec (Some msg) (world s)) as (mid & E & Ha & Hr & Hi).
  { rewrite Hmsg. exact Hne. }
  rewrite Hmsg, T in E. unfold call_sendMessage. rewrite E. simpl.
  split; [|split; [reflexivity|split; [reflexivity|]]].
  - exists mid. split; [reflexivity|]. split; [exact Ha|]. split; [exact Hr|].
    intros Hin. apply Hi in Hin. congruence.
  - intros manualMsg w Hchg.
    destruct (truthy (js_of manualMsg)) eqn:Tm; [exfalso|reflexivity].
    apply Hchg.
    destruct (String.eqb_spec (message_text manualMsg w) EmptyString) as [Ee|Ene].
    + rewrite (sendMessage_begin_empty _ _ Ee). reflexivity.
    + destruct (sendMessage_begin_spec manualMsg w Ene) as (mid' & -> & _).
      simpl. rewrite Tm. reflexivity.
Qed.

Lemma quick_reply_bypasses_input_witness :
  let s := idle "hello" [Some "Track my ticket"] in
  tasks (step s (ClickQuickReply 0)) = [AwaitingFetch (request_for "Track my ticket")]
  /\ userInput (world (step s (ClickQuickReply 0))) = "hello".
Proof.
  pose proof (quick_reply_bypasses_input (idle "hello" [Some "Track my ticket"]) 0
                "Track my ticket" eq_refl ltac:(discriminate)) as H.
  cbv zeta in H. destruct H as (_ & Ht & Hu & _).
  split; [exact Ht | exact Hu].
Defined.

(** ** Set-up *)

(** C9 (as stated, refuted).  Set-up on a page without the chat box is not
    without effect: before it returns, the handler writes a line on the
    console (line 10). *)
Lemma setup_console_counterexample :
  doc_chatBox login_page = None
  /\ DOMContentLoaded login_page = Skipped [ConsoleLog not_found_line]
  /\ [ConsoleLog not_found_line] <> @nil Effect.
Proof. repeat split. discriminate. Qed.

(** C9 (amended).  On a document without the chat box, or without the input
    field, the handler returns at line 11: it attaches no listener, appends
    no message (so no greeting), issues no request and throws nothing; its
    one effect is the line it writes on the console. *)
Theorem setup_skipped_without_surface (d : Document) :
  doc_chatBox d = None \/ doc_userInput d = None ->
  DOMContentLoaded d = Skipped [ConsoleLog not_found_line]
  /\ appended [ConsoleLog not_found_line] = []
  /\ requests [ConsoleLog not_found_line] = [].
Proof.
  intros H. split; [|split; reflexivity].
  unfold DOMContentLoaded. destruct H as [-> | ->]; [reflexivity|].
  destruct (doc_chatBox d); reflexivity.
Qed.

Lemma setup_skipped_without_surface_witness :
  DOMContentLoaded login_page = Skipped [ConsoleLog not_found_line].
Proof.
  apply (setup_skipped_without_surface login_page). left. reflexivity.
Defined.

(** ** One call, one exchange *)

(** A call of sendMessage either returns at once, leaving the session as it
    was, or suspends on the request it has just issued. *)
Lemma call_sendMessage_spec (manualMsg : option string) (s : Session) :
  let msg := message_text manualMsg (world s) in
  (msg = EmptyString /\ call_sendMessage manualMsg s = s)
  \/ (msg <> EmptyString /\ exists mid,
        call_sendMessage manualMsg s =
        with_tasks
          (with_world s
             {| chatBox := chatBox (world s) ++ message_element "user" msg
                             :: (if Nat.eqb (markers (world s)) 0 then [loader] else []);
                userInput := if truthy (js_of manualMsg) then userInput (world s)
                             else EmptyString;
                trace := trace (world s) ++ AppendChild (message_element "user" msg)
                           :: mid ++ [Fetch (request_for msg)] |})
          (tasks s ++ [AwaitingFetch (request_for msg)])
        /\ appended mid = [] /\ requests mid = []).
Proof.
  intros msg. subst msg.
  destruct (String.eqb_spec (message_text manualMsg (world s)) EmptyString) as [E|E].
  - left. split; [exact E|]. unfold call_sendMessage.
    rewrite (sendMessage_begin_empty _ _ E). destruct s; reflexivity.
  - right. split; [exact E|].
    destruct (sendMessage_begin_spec manualMsg (world s) E) as (mid & Eb & Ha & Hr & _).
    exists mid. unfold call_sendMessage. rewrite Eb. repeat split; assumption.
Qed.

Lemma step_fetch_rejected (s : Session) (i : nat) (r : Request) (err : Error) :
  tasks s !! i = Some (AwaitingFetch r) ->
  step s (FetchSettled i (Rejected err))
  = with_tasks (with_world s (world_of (sendMessage_catch err (world s))))
               (delete i (tasks s)).
Proof.
  intros Ht. unfold step. rewrite Ht.
  unfold sendMessage_on_fetch, bind.
  destruct (sendMessage_catch_spec err (world s)) as (w' & fx & -> & _). reflexivity.
Qed.

Lemma step_fetch_fulfilled (s : Session) (i : nat) (r : Request) (u : unit) :
  tasks s !! i = Some (AwaitingFetch r) ->
  step s (FetchSettled i (Fulfilled u))
  = with_tasks (with_world s (world_of (hideLoading (world s))))
               (<[i := AwaitingJson]> (tasks s)).
Proof.
  intros Ht. unfold step. rewrite Ht.
  unfold sendMessage_on_fetch, try_catch, bind.
  destruct (hideLoading_spec (world s)) as (fx & -> & _). reflexivity.
Qed.

(** C5.  A call of sendMessage with a non-empty text appends the user
    message and nothing else to the log, and only then issues its one
    request; it is then suspended.  When the request fails, the call appends
    exactly one message, of role bot or error, and is over.  When the
    response arrives, the call appends nothing yet and waits for the body;
    when that is parsed, or fails to be, the call appends exactly one
    message, of role bot or error, issues no further request, and is over.
    The message that closes the exchange is thus appended by the very step
    that receives the outcome.  Run without interruption, the call adds to
    the conversation the user message and one message of role bot or error,
    in this order, whatever way the exchange goes. *)
Theorem one_user_one_result (s : Session) (manualMsg : option string) :
  let msg := message_text manualMsg (world s) in
  msg <> EmptyString ->
  let s1 := call_sendMessage manualMsg s in
  (exists mid,
      trace (world s1) = trace (world s) ++ AppendChild (message_element "user" msg)
                           :: mid ++ [Fetch (request_for msg)]
      /\ appended mid = [] /\ requests mid = [])
  /\ message_of (message_element "user" msg) = Some {| role := User; text := msg |}
  /\ tasks s1 = tasks s ++ [AwaitingFetch (request_for msg)]
  /\ (forall s2 i r, tasks s2 !! i = Some (AwaitingFetch r) ->
      (forall err,
          let s3 := step s2 (FetchSettled i (Rejected err)) in
          tasks s3 = delete i (tasks s2)
          /\ exists m fx, appends_one (world s2) (world s3) m fx /\ role m <> User)
      /\ (forall u,
           let s3 := step s2 (FetchSettled i (Fulfilled u)) in
           tasks s3 = <[i := AwaitingJson]> (tasks s2)
           /\ exists fx, trace (world s3) = trace (world s2) ++ fx
                         /\ appended fx = [] /\ requests fx = []))
  /\ (forall s2 i, tasks s2 !! i = Some AwaitingJson ->
      forall data,
        let s3 := step s2 (JsonSettled i data) in
        tasks s3 = delete i (tasks s2)
        /\ exists m fx, appends_one (world s2) (world s3) m fx /\ role m <> User)
  /\ (forall exchange, exists w' m,
        sendMessage manualMsg exchange (world s) = Ok tt w'
        /\ conversation w'
           = conversation (world s) ++ [{| role := User; text := msg |}; m]
        /\ role m <> User).
Proof.
  intros msg Hne s1.
  split; [|split; [reflexivity|split; [|split; [|split]]]].
  5: { intros exchange.
       destruct (sendMessage_uninterrupted manualMsg exchange (world s) Hne)
         as (w' & m & E & _ & Hc & Hr & _).
       exists w', m. split; [exact E|]. split; [exact Hc | exact Hr]. }
  - destruct (call_sendMessage_spec manualMsg s) as [[E _]|(_ & mid & E & Ha & Hr)];
      [contradiction|].
    subst s1. rewrite E. exists mid. split; [reflexivity|]. split; assumption.
  - destruct (call_sendMessage_spec manualMsg s) as [[E _]|(_ & mid & E & _)];
      [contradiction|].
    subst s1. rewrite E. reflexivity.
  - intros s2 i r Ht. split.
    + intros err s3. subst s3. rewrite (step_fetch_rejected _ _ _ _ Ht).
      split; [reflexivity|].
      destruct (sendMessage_catch_spec err (world s2)) as (w' & fx & E & Ha & _).
      rewrite E. eexists _, fx. split; [exact Ha | discriminate].
    + intros u s3. subst s3. rewrite (step_fetch_fulfilled _ _ _ _ Ht).
      split; [reflexivity|].
      destruct (hideLoading_spec (world s2)) as (fx & E & Ha & Hr & _).
      rewrite E. exists fx. split; [reflexivity|]. split; assumption.
  - intros s2 i Ht data s3. subst s3. unfold step. rewrite Ht.
    split; [reflexivity|].
    destruct (sendMessage_on_json_spec data (world s2)) as (m & fx & w' & E & Ha & Hr & _).
    rewrite E. exists m, fx. split; assumption.
Qed.

Lemma one_user_one_result_witness :
  let s := idle "  where is my order? " [] in
  tasks (step s ClickSend) = [AwaitingFetch (request_for "where is my order?")]
  /\ conversation (world (step s ClickSend))
     = [{| role := Bot; text := welcome |};
        {| role := User; text := "where is my order?" |}].
Proof.
  pose proof (one_user_one_result (idle "  where is my order? " []) None
                ltac:(vm_compute; discriminate)) as H.
  cbv zeta in H. destruct H as (_ & _ & Ht & _).
  split; [exact Ht | reflexivity].
Defined.

(** ** The marker *)

Lemma call_sendMessage_markers (manualMsg : option string) (s : Session) :
  markers (world (call_sendMessage manualMsg s))
  = if String.eqb (message_text manualMsg (world s)) EmptyString
    then markers (world s)
    else Nat.max 1 (markers (world s)).
Proof.
  destruct (call_sendMessage_spec manualMsg s) as [[E ->]|(Hne & mid & -> & _)].
  - rewrite E. reflexivity.
  - destruct (String.eqb_spec (message_text manualMsg (world s)) EmptyString);
      [contradiction|].
    unfold markers at 1; simpl. rewrite count_markers_app.
    change (count_markers (?e :: ?l)) with (count_markers l).
    fold (markers (world s)).
    destruct (Nat.eqb_spec (markers (world s)) 0) as [Z|NZ].
    + rewrite Z. reflexivity.
    + change (count_markers []) with 0. lia.
Qed.

Lemma hideLoading_markers (w : World) :
  markers (world_of (hideLoading w)) = pred (markers w).
Proof.
  destruct (hideLoading_spec w) as (fx & -> & _). unfold markers; simpl.
  apply count_markers_remove_first.
Qed.

(** Every step of the event loop keeps the number of markers within one. *)
Lemma step_markers (s : Session) (ev : Event) :
  markers (world s) <= 1 -> markers (world (step s ev)) <= 1.
Proof.
  intros Hm. destruct ev as [v| |key|confirmed|i|i res|i data];
    [unfold step .. | | unfold step].
  - exact Hm.
  - destruct (sendBtn s); [|exact Hm].
    rewrite call_sendMessage_markers. destruct (String.eqb _ _); lia.
  - destruct (String.eqb key "Enter"); [|exact Hm].
    rewrite call_sendMessage_markers.
    change (markers (world (with_world s (world_of (effect PreventDefault (world s))))))
      with (markers (world s)).
    destruct (String.eqb _ _); lia.
  - destruct (clearBtn s); [|exact Hm].
    destruct confirmed; [|exact Hm].
    unfold clear_click, bind, clearChildren. rewrite appendMessage_text.
    unfold markers; simpl. change (count_markers [_]) with 0. lia.
  - destruct (quickReplies s !! i) as [data_msg|]; [|exact Hm].
    rewrite call_sendMessage_markers. destruct (String.eqb _ _); lia.
  - destruct (tasks s !! i) as [[r|]|] eqn:Ht;
      try (unfold step; rewrite Ht; exact Hm).
    destruct res as [u|err].
    + rewrite (step_fetch_fulfilled _ _ _ _ Ht). simpl.
      rewrite hideLoading_markers. lia.
    + rewrite (step_fetch_rejected _ _ _ _ Ht). simpl.
      rewrite sendMessage_catch_markers. lia.
  - destruct (tasks s !! i) as [[r|]|]; try exact Hm.
    destruct (sendMessage_on_json_spec data (world s)) as (m & fx & w' & E & _ & _ & Hle).
    rewrite E. simpl. lia.
Qed.

Lemma run_markers (evs : list Event) (s : Session) :
  markers (world s) <= 1 -> markers (world (run s evs)) <= 1.
Proof.
  revert s. induction evs as [|ev evs IH]; intros s Hm; [exact Hm|].
  simpl. apply IH, step_markers, Hm.
Qed.

(** So does each helper, hence every state a listener goes through. *)
Lemma helpers_markers (w : World) :
  markers w <= 1 ->
  markers (world_of (showLoading w)) <= 1
  /\ markers (world_of (hideLoading w)) <= 1
  /\ markers (world_of (clearChildren w)) <= 1
  /\ forall v cls, markers (world_of (appendMessage v cls w)) <= 1.
Proof.
  intros Hm. split; [|split; [|split]].
  - destruct (Nat.eq_dec (markers w) 0) as [Z|NZ].
    + rewrite (showLoading_absent _ Z). unfold markers; simpl.
      rewrite count_markers_app. fold (markers w). rewrite Z.
      change (count_markers [loader]) with 1. lia.
    + rewrite showLoading_present by lia. exact Hm.
  - rewrite hideLoading_markers. lia.
  - unfold markers; simpl. change (count_markers []) with 0. lia.
  - intros v cls. rewrite appendMessage_value.
    destruct (dom_text v); [|exact Hm]. simpl.
    rewrite markers_append_message. exact Hm.
Qed.

(** C4.  Start from any document whose chat box holds at most one element
    with the loader's id and on which the script sets itself up.  After any
    sequence of events, user actions and settlements of outstanding requests
    in any order, the chat box holds at most one marker.  The guard of
    showLoading is what ensures it: called while a marker shows, showLoading
    changes nothing.  The helpers the listeners are made of keep the bound
    one by one, so it also holds in between the steps of a listener. *)
Theorem at_most_one_marker (d : Document) (s : Session) (evs : list Event) :
  DOMContentLoaded d = Attached s ->
  count_markers (default [] (doc_chatBox d)) <= 1 ->
  markers (world (run s evs)) <= 1
  /\ (forall w, 1 <= markers w -> showLoading w = Ok tt w)
  /\ (forall w, markers w <= 1 ->
        markers (world_of (showLoading w)) <= 1
        /\ markers (world_of (hideLoading w)) <= 1
        /\ markers (world_of (clearChildren w)) <= 1
        /\ forall v cls, markers (world_of (appendMessage v cls w)) <= 1).
Proof.
  intros Hd Hm. split; [|split; [exact showLoading_present | exact helpers_markers]].
  apply run_markers.
  unfold DOMContentLoaded in Hd.
  destruct (doc_chatBox d) as [children|]; [|discriminate].
  destruct (doc_userInput d) as [value|]; [|discriminate].
  injection Hd as <-. unfold markers; cbn [world chatBox].
  rewrite count_markers_app. change (count_markers [_]) with 0.
  simpl in Hm. lia.
Qed.

Lemma at_most_one_marker_witness :
  markers (world (run chat_session overlapping)) <= 1.
Proof.
  apply (at_most_one_marker chat_page chat_session overlapping).
  - reflexivity.
  - vm_compute. lia.
Defined.

(** ** Overlapping sends *)




(** * Further properties of the chat script *)

(** ** The effects of each piece, exactly *)

Lemma hideLoading_exact (w : World) :
  hideLoading w =
  Ok tt {| chatBox := remove_first is_marker (chatBox w);
           userInput := userInput w;
           trace := trace w ++ hide_fx w |}.
Proof.
  unfold hideLoading, bind, getElementById, hide_fx.
  change (has_id "loading-indicator") with is_marker.
  destruct (find is_marker (chatBox w)) as [e|] eqn:F.
  - unfold remove. rewrite (find_marker_id _ _ F). reflexivity.
  - rewrite (remove_first_absent _ _ F), app_nil_r. destruct w; reflexivity.
Qed.

Lemma sendMessage_catch_exact (err : Error) (w : World) :
  sendMessage_catch err w =
  Ok tt {| chatBox := remove_first is_marker (chatBox w)
                        ++ [message_element "err" ("Error: " +:+ message err)];
           userInput := userInput w;
           trace := trace w ++ hide_fx w
                      ++ [AppendChild (message_element "err" ("Error: " +:+ message err));
                          ScrollToBottom;
                          ConsoleError "Chat error:" (message err)] |}.
Proof.
  unfold sendMessage_catch, bind. rewrite hideLoading_exact, appendMessage_text.
  unfold effect; simpl. rewrite <- !app_assoc. reflexivity.
Qed.

Lemma render_exact (data : Value) (w : World) :
  (exists err, render data w = Throw err w)
  \/ (exists cls t, (cls = "bot" \/ cls = "err")
                    /\ render data w = Ok tt (with_message w cls t)).
Proof.
  assert (Happend : forall v cls, cls = "bot" \/ cls = "err" ->
            (exists err, appendMessage v cls w = Throw err w)
            \/ (exists cls' t, (cls' = "bot" \/ cls' = "err")
                  /\ appendMessage v cls w = Ok tt (with_message w cls' t))).
  { intros v cls Hcls. rewrite appendMessage_value.
    destruct (dom_text v) as [t|]; [right | left; eexists; reflexivity].
    exists cls, t. split; [exact Hcls | reflexivity]. }
  assert (data = VNull \/ data = VUndefined \/ (data <> VNull /\ data <> VUndefined))
    as [-> | [-> | [Hn Hu]]]
    by (destruct data; auto; right; right; split; discriminate).
  1, 2: left; eexists; reflexivity.
  rewrite render_eq by assumption. cbv zeta.
  repeat match goal with
         | |- context [if ?b then _ else _] => destruct b
         | |- context [match to_string ?v with _ => _ end] => destruct (to_string v)
         end;
    try (apply Happend; tauto);
    left; eexists; reflexivity.
Qed.

Lemma hide_fx_quiet (w : World) :
  appended (hide_fx w) = [] /\ requests (hide_fx w) = [] /\ clears (hide_fx w) = 0
  /\ forall v, ~ In (SetInputValue v) (hide_fx w).
Proof.
  unfold hide_fx. destruct (find is_marker (chatBox w)); repeat split;
    simpl; intuition discriminate.
Qed.

Lemma clears_app (fx1 fx2 : list Effect) : clears (fx1 ++ fx2) = clears fx1 + clears fx2.
Proof. unfold clears. rewrite List.filter_app, length_app. reflexivity. Qed.

Lemma answers_app (fx1 fx2 : list Effect) : answers (fx1 ++ fx2) = answers fx1 + answers fx2.
Proof. unfold answers. rewrite appended_app, List.filter_app, length_app. reflexivity. Qed.

Lemma user_texts_app (fx1 fx2 : list Effect) :
  user_texts (fx1 ++ fx2) = user_texts fx1 ++ user_texts fx2.
Proof. unfold user_texts. rewrite appended_app, List.filter_app, map_app. reflexivity. Qed.

Lemma sendMessage_catch_closing (err : Error) (w : World) :
  exists fx m,
    trace (world_of (sendMessage_catch err w)) = trace w ++ fx
    /\ closing fx m
    /\ conversation (world_of (sendMessage_catch err w)) = conversation w ++ [m].
Proof.
  rewrite sendMessage_catch_exact. cbn [world_of trace].
  destruct (hide_fx_quiet w) as (Ha & Hr & Hc & Hi).
  eexists _, {| role := Err; text := "Error: " +:+ message err |}.
  split; [reflexivity|]. split.
  - unfold closing. rewrite appended_app, requests_app, clears_app, Ha, Hr, Hc.
    repeat split. intros v Hin. apply in_app_or in Hin as [Hin|Hin].
    + exact (Hi v Hin).
    + simpl in Hin. intuition discriminate.
  - unfold conversation; cbn [chatBox]. rewrite omap_app, conversation_remove_marker.
    reflexivity.
Qed.

Lemma with_message_closing (w : World) (cls t : string) :
  cls = "bot" \/ cls = "err" ->
  exists fx m,
    trace (with_message w cls t) = trace w ++ fx
    /\ closing fx m
    /\ conversation (with_message w cls t) = conversation w ++ [m].
Proof.
  intros Hcls. unfold with_message; cbn [trace].
  eexists _, {| role := if String.eqb cls "bot" then Bot else Err; text := t |}.
  split; [reflexivity|]. split.
  - unfold closing. destruct Hcls as [-> | ->]; repeat split;
      simpl; intuition discriminate.
  - unfold conversation; cbn [chatBox]. rewrite omap_app.
    destruct Hcls as [-> | ->]; reflexivity.
Qed.

Lemma sendMessage_on_json_closing (data : Settled Value) (w : World) :
  exists fx m,
    trace (world_of (sendMessage_on_json data w)) = trace w ++ fx
    /\ closing fx m
    /\ conversation (world_of (sendMessage_on_json data w)) = conversation w ++ [m].
Proof.
  destruct data as [d|err]; [|apply sendMessage_catch_closing].
  unfold sendMessage_on_json, try_catch.
  destruct (render_exact d w) as [(err & ->)|(cls & t & Hcls & ->)].
  - apply sendMessage_catch_closing.
  - apply with_message_closing, Hcls.
Qed.

Lemma sendMessage_begin_exact (manualMsg : option string) (w : World) :
  message_text manualMsg w <> EmptyString ->
  sendMessage_begin manualMsg w =
  Ok (Some (request_for (message_text manualMsg w)))
     {| chatBox := chatBox w ++ message_element "user" (message_text manualMsg w)
                     :: (if Nat.eqb (markers w) 0 then [loader] else []);
        userInput := if truthy (js_of manualMsg) then userInput w else EmptyString;
        trace := trace w ++ begin_fx manualMsg w |}.
Proof.
  intros Hne. unfold begin_fx, message_text in *.
  assert (Hshow : forall w1, markers w1 = markers w ->
            showLoading w1 =
            Ok tt {| chatBox := chatBox w1 ++ (if Nat.eqb (markers w) 0 then [loader] else []);
                     userInput := userInput w1;
                     trace := trace w1 ++ (if Nat.eqb (markers w) 0
                                           then [AppendChild loader; ScrollToBottom]
                                           else []) |}).
  { intros w1 E. destruct (Nat.eqb_spec (markers w) 0) as [Z|NZ].
    - apply showLoading_absent; lia.
    - rewrite !app_nil_r. rewrite showLoading_present by lia. destruct w1; reflexivity. }
  unfold sendMessage_begin, bind.
  destruct (truthy (js_of manualMsg)) eqn:T; unfold ret, getInputValue;
    rewrite truthy_text_eqb;
    match goal with
    | |- context [String.eqb ?t EmptyString] =>
        destruct (String.eqb_spec t EmptyString) as [E|_]; [contradiction|]
    end;
    rewrite appendMessage_text; simpl.
  - rewrite Hshow by apply markers_append_message.
    unfold fetch, effect; simpl. rewrite <- !app_assoc. reflexivity.
  - unfold setInputValue; simpl.
    rewrite Hshow by apply markers_append_message.
    unfold fetch, effect; simpl. rewrite <- !app_assoc. reflexivity.
Qed.

Lemma call_sendMessage_exact (manualMsg : option string) (s : Session) :
  message_text manualMsg (world s) <> EmptyString ->
  call_sendMessage manualMsg s =
  with_tasks
    (with_world s
       {| chatBox := chatBox (world s)
                       ++ message_element "user" (message_text manualMsg (world s))
                       :: (if Nat.eqb (markers (world s)) 0 then [loader] else []);
          userInput := if truthy (js_of manualMsg) then userInput (world s)
                       else EmptyString;
          trace := trace (world s) ++ begin_fx manualMsg (world s) |})
    (tasks s ++ [AwaitingFetch (request_for (message_text manualMsg (world s)))]).
Proof.
  intros Hne. unfold call_sendMessage.
  rewrite (sendMessage_begin_exact _ _ Hne). reflexivity.
Qed.

Lemma call_sendMessage_nothing (manualMsg : option string) (s : Session) :
  message_text manualMsg (world s) = EmptyString -> call_sendMessage manualMsg s = s.
Proof.
  intros E. unfold call_sendMessage. rewrite (sendMessage_begin_empty _ _ E).
  destruct s; reflexivity.
Qed.

(** ** Every step is accounted for *)

Lemma accounted_refl (s : Session) : accounted s s [].
Proof.
  unfold accounted. rewrite !app_nil_r. repeat split; try reflexivity.
  intros v [].
Qed.

Lemma accounted_trans (s1 s2 s3 : Session) (fx1 fx2 : list Effect) :
  accounted s1 s2 fx1 -> accounted s2 s3 fx2 -> accounted s1 s3 (fx1 ++ fx2).
Proof.
  intros (T1 & R1 & A1 & C1 & I1) (T2 & R2 & A2 & C2 & I2).
  unfold accounted.
  rewrite requests_app, user_texts_app, answers_app, clears_app, appended_app,
    map_app, length_app.
  split; [rewrite T2, T1, <- app_assoc; reflexivity|].
  split; [rewrite R1, R2; reflexivity|].
  split; [lia|]. split.
  - intros Hc. rewrite C2, C1 by lia. rewrite <- app_assoc. reflexivity.
  - intros v Hin. apply in_app_or in Hin as [Hin|Hin]; eauto.
Qed.

Lemma call_sendMessage_accounted (manualMsg : option string) (s : Session) :
  exists fx, accounted s (call_sendMessage manualMsg s) fx /\ clears fx = 0.
Proof.
  destruct (String.eqb_spec (message_text manualMsg (world s)) EmptyString) as [E|Hne].
  - rewrite (call_sendMessage_nothing _ _ E). exists [].
    split; [apply accounted_refl | reflexivity].
  - rewrite (call_sendMessage_exact _ _ Hne). exists (begin_fx manualMsg (world s)).
    unfold accounted, begin_fx; cbn [world tasks with_tasks with_world trace].
    rewrite length_app.
    destruct (truthy (js_of manualMsg)), (Nat.eqb (markers (world s)) 0);
      (split; [|reflexivity]);
      (split; [reflexivity|]); (split; [reflexivity|]);
      (split; [simpl; lia|]); (split; [intros _; unfold conversation; cbn [chatBox];
                                       rewrite omap_app; reflexivity|]);
      intros v Hin; simpl in Hin; intuition congruence.
Qed.

Lemma closing_accounted (s : Session) (w' : World) (i : nat) (fx : list Effect)
      (m : Message) :
  is_Some (tasks s !! i) ->
  trace w' = trace (world s) ++ fx ->
  closing fx m ->
  conversation w' = conversation (world s) ++ [m] ->
  accounted s (with_tasks (with_world s w') (delete i (tasks s))) fx.
Proof.
  intros Hi Ht (Ha & Hu & Hr & Hc & Hin) Hconv.
  pose proof (lookup_lt_is_Some_1 _ _ Hi) as Hlt.
  unfold accounted, user_texts, answers; cbn [world tasks with_tasks with_world].
  rewrite Ha, Hr, Hc, (length_delete _ _ Hi). simpl. rewrite Hu. simpl.
  split; [exact Ht|]. split; [reflexivity|]. split; [lia|].
  split; [intros _; exact Hconv|].
  intros v Hv. destruct (Hin v Hv).
Qed.

Lemma step_accounted (s : Session) (ev : Event) :
  exists fx, accounted s (step s ev) fx /\ (ev <> ClickClear true -> clears fx = 0).
Proof.
  assert (Hrefl : exists fx, accounted s s fx /\ (ev <> ClickClear true -> clears fx = 0)).
  { exists []. split; [apply accounted_refl | reflexivity]. }
  assert (Hcall : forall manualMsg, exists fx,
             accounted s (call_sendMessage manualMsg s) fx
             /\ (ev <> ClickClear true -> clears fx = 0)).
  { intros manualMsg.
    destruct (call_sendMessage_accounted manualMsg s) as (fx & Hfx & Hc).
    exists fx. split; [exact Hfx | intros _; exact Hc]. }
  destruct ev as [v| |key|confirmed|i|i res|i data].
  - exists []. split; [|reflexivity]. unfold accounted; cbn. rewrite !app_nil_r.
    split; [reflexivity|]. split; [reflexivity|]. split; [reflexivity|].
    split; [reflexivity|]. intros ? [].
  - unfold step. destruct (sendBtn s); [apply Hcall | exact Hrefl].
  - unfold step. destruct (String.eqb key "Enter"); [|exact Hrefl].
    set (s0 := with_world s (world_of (effect PreventDefault (world s)))).
    destruct (call_sendMessage_accounted None s0) as (fx & Hfx & Hc).
    exists ([PreventDefault] ++ fx). split; [|intros _; rewrite clears_app, Hc; reflexivity].
    refine (accounted_trans _ _ _ _ _ _ Hfx).
    unfold accounted, s0; cbn.
    split; [reflexivity|]. split; [reflexivity|]. split; [reflexivity|].
    split; [intros _; apply eq_sym, app_nil_r|].
    intros v [H|[]]; discriminate.
  - unfold step. destruct (clearBtn s); [|exact Hrefl].
    destruct confirmed.
    + unfold clear_click, bind, clearChildren. rewrite appendMessage_text.
      exists [ClearChildren; AppendChild (message_element "bot" cleared_greeting);
              ScrollToBottom].
      split; [|congruence].
      unfold accounted; cbn.
      split; [rewrite <- app_assoc; reflexivity|].
      split; [reflexivity|]. split; [reflexivity|]. split; [discriminate|].
      intros v [H|[H|[H|[]]]]; discriminate.
    + exists []. split; [|reflexivity]. cbn. destruct s as [? ? ? [] ?].
      apply accounted_refl.
  - unfold step. destruct (quickReplies s !! i) as [data_msg|];
      [apply Hcall | exact Hrefl].
  - destruct (tasks s !! i) as [[r|]|] eqn:Ht;
      try (unfold step; rewrite Ht; exact Hrefl).
    destruct res as [u|err].
    + rewrite (step_fetch_fulfilled _ _ _ _ Ht), hideLoading_exact.
      exists (hide_fx (world s)).
      destruct (hide_fx_quiet (world s)) as (Ha & Hr & Hc & Hi).
      split; [|intros _; exact Hc].
      unfold accounted, user_texts, answers;
        cbn [world tasks with_tasks with_world world_of trace].
      rewrite Ha, Hr, Hc, length_insert. simpl.
      split; [reflexivity|]. split; [reflexivity|]. split; [lia|].
      split; [|intros v Hv; destruct (Hi v Hv)].
      intros _. unfold conversation; cbn [chatBox].
      rewrite conversation_remove_marker, app_nil_r. reflexivity.
    + rewrite (step_fetch_rejected _ _ _ _ Ht).
      destruct (sendMessage_catch_closing err (world s)) as (fx & m & Hfx & Hcl & Hconv).
      exists fx. split; [|intros _; apply Hcl].
      apply (closing_accounted s _ i fx m); eauto.
  - destruct (tasks s !! i) as [[r|]|] eqn:Ht;
      try (unfold step; rewrite Ht; exact Hrefl).
    unfold step. rewrite Ht.
    destruct (sendMessage_on_json_closing data (world s)) as (fx & m & Hfx & Hcl & Hconv).
    exists fx. split; [|intros _; apply Hcl].
    apply (closing_accounted s _ i fx m); eauto.
Qed.

Lemma run_accounted (evs : list Event) (s : Session) :
  exists fx,
    accounted s (run s evs) fx
    /\ (Forall (fun ev => ev <> ClickClear true) evs -> clears fx = 0).
Proof.
  revert s. induction evs as [|ev evs IH]; intros s.
  - exists []. split; [apply accounted_refl | reflexivity].
  - destruct (step_accounted s ev) as (fx1 & H1 & C1).
    destruct (IH (step s ev)) as (fx2 & H2 & C2).
    exists (fx1 ++ fx2). split; [exact (accounted_trans _ _ _ _ _ H1 H2)|].
    intros Hall. apply Forall_cons in Hall as [Hev Hall].
    rewrite clears_app, C1, C2 by assumption. reflexivity.
Qed.

Lemma loaded_session (d : Document) (s : Session) :
  DOMContentLoaded d = Attached s ->
  tasks s = []
  /\ trace (world s) = [AppendChild (message_element "bot" welcome); ScrollToBottom].
Proof.
  unfold DOMContentLoaded.
  destruct (doc_chatBox d) as [children|]; [|discriminate].
  destruct (doc_userInput d) as [value|]; [|discriminate].
  intros H. injection H as <-. split; reflexivity.
Qed.

(** ** The conversation over a whole run *)

(** X1.  As long as no clearing is confirmed, messages are only ever added at
    the end of the conversation: after any sequence of events the
    conversation is the one before followed by the messages appended
    meanwhile, in the order of their appending; none is removed, changed or
    moved, whatever happens to the marker in between. *)
Theorem conversation_only_grows (s : Session) (evs : list Event) :
  Forall (fun ev => ev <> ClickClear true) evs ->
  exists fx,
    trace (world (run s evs)) = trace (world s) ++ fx
    /\ conversation (world (run s evs)) = conversation (world s) ++ appended fx.
Proof.
  intros Hall. destruct (run_accounted evs s) as (fx & (Ht & _ & _ & Hc & _) & Hcl).
  exists fx. split; [exact Ht|]. apply Hc, Hcl, Hall.
Qed.

Lemma conversation_only_grows_witness :
  exists fx,
    trace (world (run chat_session overlapping)) = trace (world chat_session) ++ fx
    /\ conversation (world (run chat_session overlapping))
       = conversation (world chat_session) ++ appended fx.
Proof.
  apply (conversation_only_grows chat_session overlapping).
  unfold overlapping. repeat constructor; discriminate.
Defined.

(** X2.  On a page the script has set itself up on, after any sequence of
    events, every request issued so far is either still outstanding or has
    been closed by exactly one message that is not a user message: the
    messages of role bot or error appended so far are the welcome, one per
    confirmed clearing, and one per request no longer outstanding. *)
Theorem every_request_accounted (d : Document) (s : Session) (evs : list Event) :
  DOMContentLoaded d = Attached s ->
  let tr := trace (world (run s evs)) in
  answers tr + length (tasks (run s evs)) = 1 + clears tr + length (requests tr).
Proof.
  intros Hd tr. subst tr.
  destruct (loaded_session d s Hd) as [Ht Htr].
  destruct (run_accounted evs s) as (fx & (Hfx & _ & Ha & _) & _).
  rewrite Hfx, Htr, answers_app, clears_app, requests_app, length_app.
  rewrite Ht in Ha. simpl in *. lia.
Qed.

Lemma every_request_accounted_witness :
  answers (trace (world (run chat_session overlapping)))
  + length (tasks (run chat_session overlapping))
  = 1 + clears (trace (world (run chat_session overlapping)))
    + length (requests (trace (world (run chat_session overlapping)))).
Proof.
  apply (every_request_accounted chat_page chat_session overlapping). reflexivity.
Defined.

(** X3.  On such a page, after any sequence of events, the requests issued
    are, in order, one for each user message appended, carrying that
    message's text: nothing is sent that is not shown, nothing shown that is
    not sent, and nothing is sent twice. *)
Theorem requests_match_user_messages (d : Document) (s : Session) (evs : list Event) :
  DOMContentLoaded d = Attached s ->
  requests (trace (world (run s evs)))
  = map request_for (user_texts (trace (world (run s evs)))).
Proof.
  intros Hd. destruct (loaded_session d s Hd) as [_ Htr].
  destruct (run_accounted evs s) as (fx & (Hfx & Hr & _) & _).
  rewrite Hfx, Htr, requests_app, user_texts_app, map_app, Hr. reflexivity.
Qed.

Lemma requests_match_user_messages_witness :
  requests (trace (world (run chat_session overlapping)))
  = map request_for ["hello"; "Track my ticket"; "Talk to an agent"].
Proof.
  rewrite (requests_match_user_messages chat_page chat_session overlapping eq_refl).
  reflexivity.
Defined.

(** X4.  The script never writes anything into the input field but the empty
    string: on such a page, after any sequence of events, every write to the
    field's value found in the trace is a clearing. *)
Theorem input_only_cleared (d : Document) (s : Session) (evs : list Event) (v : string) :
  DOMContentLoaded d = Attached s ->
  In (SetInputValue v) (trace (world (run s evs))) ->
  v = EmptyString.
Proof.
  intros Hd Hin. destruct (loaded_session d s Hd) as [_ Htr].
  destruct (run_accounted evs s) as (fx & (Hfx & _ & _ & _ & Hi) & _).
  rewrite Hfx, Htr in Hin. apply in_app_or in Hin as [Hin|Hin]; [|exact (Hi v Hin)].
  simpl in Hin. intuition discriminate.
Qed.

Lemma input_only_cleared_witness :
  In (SetInputValue EmptyString) (trace (world (run chat_session overlapping)))
  /\ EmptyString = EmptyString.
Proof.
  assert (Hin : In (SetInputValue EmptyString)
                   (trace (world (run chat_session overlapping)))).
  { vm_compute. right. right. right. right. left. reflexivity. }
  split; [exact Hin|].
  exact (input_only_cleared chat_page chat_session overlapping EmptyString eq_refl Hin).
Defined.

(** ** Sending from the keyboard and from the button *)

(** X5.  A key other than Enter pressed in the input field does nothing.
    Enter does what a call [sendMessage()] does, whether or not the page has a
    send button: the same chat box, input value and suspended calls, and the
    same effects after the one that cancels the key's default action.  A
    click on a send button that is missing does nothing. *)
Theorem enter_key_sends (s : Session) (key : string) :
  (key <> "Enter" -> step s (Keypress key) = s)
  /\ (chatBox (world (step s (Keypress "Enter"))) = chatBox (world (call_sendMessage None s))
      /\ userInput (world (step s (Keypress "Enter")))
         = userInput (world (call_sendMessage None s))
      /\ tasks (step s (Keypress "Enter")) = tasks (call_sendMessage None s)
      /\ exists fx,
          trace (world (call_sendMessage None s)) = trace (world s) ++ fx
          /\ trace (world (step s (Keypress "Enter")))
             = trace (world s) ++ PreventDefault :: fx)
  /\ (sendBtn s = false -> step s ClickSend = s).
Proof.
  split; [|split].
  - intros Hk. unfold step. destruct (String.eqb_spec key "Enter"); [contradiction|].
    reflexivity.
  - change (step s (Keypress "Enter"))
      with (call_sendMessage None (with_world s (world_of (effect PreventDefault (world s))))).
    set (s0 := with_world s (world_of (effect PreventDefault (world s)))).
    assert (Hm : message_text None (world s0) = message_text None (world s)) by reflexivity.
    destruct (String.eqb_spec (message_text None (world s)) EmptyString) as [E|Hne].
    + rewrite (call_sendMessage_nothing None s E).
      rewrite (call_sendMessage_nothing None s0) by (rewrite Hm; exact E).
      split; [reflexivity|]. split; [reflexivity|]. split; [reflexivity|].
      exists []. rewrite app_nil_r. split; reflexivity.
    + rewrite (call_sendMessage_exact None s Hne).
      rewrite (call_sendMessage_exact None s0) by (rewrite Hm; exact Hne).
      split; [reflexivity|]. split; [reflexivity|]. split; [reflexivity|].
      exists (begin_fx None (world s)).
      split; [reflexivity|]. cbn. rewrite <- app_assoc. reflexivity.
  - intros Hb. unfold step. rewrite Hb. reflexivity.
Qed.

Lemma enter_key_sends_witness :
  step (idle "hello" []) (Keypress "a") = idle "hello" []
  /\ tasks (step (idle "hello" []) (Keypress "Enter"))
     = tasks (call_sendMessage None (idle "hello" [])).
Proof.
  pose proof (enter_key_sends (idle "hello" []) "a") as (Hother & (_ & _ & Ht & _) & _).
  split; [apply Hother; discriminate | exact Ht].
Defined.

(** X6.  A second click on the send button right after a first one sends
    nothing more: the first has emptied the input field, or there was nothing
    to send in the first place. *)
Theorem send_click_twice (s : Session) :
  step (step s ClickSend) ClickSend = step s ClickSend.
Proof.
  unfold step at 2 3. destruct (sendBtn s) eqn:Hb.
  - destruct (String.eqb_spec (message_text None (world s)) EmptyString) as [E|Hne].
    + rewrite (call_sendMessage_nothing None s E). unfold step. rewrite Hb.
      apply call_sendMessage_nothing, E.
    + rewrite (call_sendMessage_exact None s Hne). unfold step at 1. cbn [sendBtn with_tasks with_world].
      rewrite Hb. apply call_sendMessage_nothing. reflexivity.
  - unfold step. rewrite Hb. reflexivity.
Qed.

(** ** Clearing while a request is outstanding *)

Lemma step_clear_confirmed (s : Session) :
  clearBtn s = true ->
  step s (ClickClear true)
  = with_world s {| chatBox := [message_element "bot" cleared_greeting];
                    userInput := userInput (world s);
                    trace := (trace (world s) ++ [ClearChildren])
                               ++ [AppendChild (message_element "bot" cleared_greeting);
                                   ScrollToBottom] |}.
Proof.
  intros Hb. unfold step. rewrite Hb.
  unfold clear_click, bind, clearChildren. rewrite appendMessage_text. reflexivity.
Qed.

(** X7.  A confirmed clearing takes the marker away with everything else but
    cancels nothing: the calls suspended on their requests stay suspended,
    and when one of them is closed afterwards, by a parsed or unparsable
    body or by a failed request, its message lands right after the message
    the clearing left, without the user message it belongs to. *)
Theorem answer_lands_after_clear (s : Session) (i : nat) :
  clearBtn s = true ->
  let s1 := step s (ClickClear true) in
  tasks s1 = tasks s
  /\ markers (world s1) = 0
  /\ (tasks s !! i = Some AwaitingJson ->
      forall data, exists m,
        conversation (world (step s1 (JsonSettled i data)))
        = [{| role := Bot; text := cleared_greeting |}; m]
        /\ is_user m = false
        /\ tasks (step s1 (JsonSettled i data)) = delete i (tasks s))
  /\ (forall r, tasks s !! i = Some (AwaitingFetch r) ->
      forall err,
        conversation (world (step s1 (FetchSettled i (Rejected err))))
        = [{| role := Bot; text := cleared_greeting |};
           {| role := Err; text := "Error: " +:+ message err |}]
        /\ tasks (step s1 (FetchSettled i (Rejected err))) = delete i (tasks s)).
Proof.
  intros Hb s1. subst s1. rewrite (step_clear_confirmed s Hb).
  set (w1 := {| chatBox := _; userInput := _; trace := _ |}).
  split; [reflexivity|]. split; [reflexivity|]. split.
  - intros Ht data. unfold step; cbn [tasks with_world world]. rewrite Ht.
    destruct (sendMessage_on_json_closing data w1) as (fx & m & _ & Hcl & Hconv).
    exists m. cbn [world with_tasks with_world tasks]. rewrite Hconv.
    split; [reflexivity|]. split; [apply Hcl | reflexivity].
  - intros r Ht err.
    rewrite (step_fetch_rejected (with_world s w1) i r err Ht).
    cbn [world with_tasks with_world tasks].
    rewrite sendMessage_catch_exact. split; reflexivity.
Qed.

Lemma answer_lands_after_clear_witness :
  let s := run chat_session [TypeText "hello"; ClickSend; FetchSettled 0 (Fulfilled tt)] in
  exists m,
    conversation
      (world (step (step s (ClickClear true))
                   (JsonSettled 0 (Fulfilled (VObj [("result", VObj [("reply", VStr "Hi")])])))))
    = [{| role := Bot; text := cleared_greeting |}; m]
    /\ is_user m = false
    /\ tasks (step (step s (ClickClear true))
                    (JsonSettled 0 (Fulfilled (VObj [("result", VObj [("reply", VStr "Hi")])]))))
       = delete 0 (tasks s).
Proof.
  intros s.
  pose proof (answer_lands_after_clear s 0 eq_refl) as H.
  cbv zeta in H. destruct H as (_ & _ & H & _).
  exact (H eq_refl (Fulfilled (VObj [("result", VObj [("reply", VStr "Hi")])]))).
Defined.

(** ** The marker of another request *)

(** X8.  The catch block hides the marker once more.  So when a response has
    arrived, another request has been sent since and shows its marker, and
    the body of the first then fails to parse, the marker goes although the
    other request is still outstanding; when the body parses and renders
    without throwing, the marker stays. *)
Theorem parse_failure_hides_marker (s : Session) (i j : nat) (r : Request) (err : Error) :
  tasks s !! i = Some AwaitingJson ->
  tasks s !! j = Some (AwaitingFetch r) ->
  markers (world s) = 1 ->
  markers (world (step s (JsonSettled i (Rejected err)))) = 0
  /\ (exists k, tasks (step s (JsonSettled i (Rejected err))) !! k = Some (AwaitingFetch r))
  /\ (forall data w',
        render data (world s) = Ok tt w' ->
        markers (world (step s (JsonSettled i (Fulfilled data)))) = 1).
Proof.
  intros Hi Hj Hm. split; [|split].
  - unfold step. rewrite Hi. cbn [world with_tasks with_world sendMessage_on_json].
    rewrite sendMessage_catch_markers, Hm. reflexivity.
  - unfold step. rewrite Hi. cbn [tasks with_tasks with_world].
    assert (Hne : i <> j) by (intros ->; congruence).
    destruct (decide (j < i)) as [Hlt|Hge].
    + exists j. rewrite list_lookup_delete_lt by exact Hlt. exact Hj.
    + exists (j - 1). rewrite list_lookup_delete_ge by lia.
      replace (S (j - 1)) with j by lia. exact Hj.
  - intros data w' Hr. unfold step. rewrite Hi.
    cbn [world with_tasks with_world sendMessage_on_json]. unfold try_catch. rewrite Hr.
    cbn [world_of].
    destruct (render_one_or_throw data (world s))
      as [(m & fx & w2 & E & _ & _ & Hk)|(e & E)]; rewrite E in Hr; [|discriminate].
    injection Hr as <-. rewrite Hk. exact Hm.
Qed.

Lemma parse_failure_hides_marker_witness :
  let s := run chat_session
             [TypeText "hello"; ClickSend; FetchSettled 0 (Fulfilled tt); ClickQuickReply 0] in
  markers (world s) = 1
  /\ markers (world (step s (JsonSettled 0 (Rejected {| message := "Unexpected token" |}))))
     = 0
  /\ exists k, tasks (step s (JsonSettled 0 (Rejected {| message := "Unexpected token" |})))
                 !! k = Some (AwaitingFetch (request_for "Track my ticket")).
Proof.
  intros s. split; [reflexivity|].
  pose proof (parse_failure_hides_marker s 0 1 (request_for "Track my ticket")
                {| message := "Unexpected token" |} eq_refl eq_refl eq_refl) as H.
  destruct H as (H0 & Hk & _). split; [exact H0 | exact Hk].
Defined.

Lemma remove_first_appended_marker (l : list Element) :
  count_markers l = 0 -> remove_first is_marker (l ++ [loader]) = l.
Proof.
  unfold count_markers. induction l as [|e l IH]; simpl; [reflexivity|].
  destruct (is_marker e); simpl; [discriminate|].
  intros H. rewrite (IH H). reflexivity.
Qed.

(** X9.  Showing the marker and hiding it again leaves the chat box and the
    input field as they were, when no marker was showing before; and with at
    most one marker showing, a second hideLoading after a first finds nothing
    to remove. *)
Theorem show_then_hide (w : World) :
  markers w <= 1 ->
  (markers w = 0 ->
   chatBox (world_of (hideLoading (world_of (showLoading w)))) = chatBox w
   /\ userInput (world_of (hideLoading (world_of (showLoading w)))) = userInput w)
  /\ hideLoading (world_of (hideLoading w)) = Ok tt (world_of (hideLoading w)).
Proof.
  intros Hm. split.
  - intros Z. rewrite (showLoading_absent w Z). cbn [world_of].
    rewrite hideLoading_exact. cbn [world_of chatBox userInput].
    split; [|reflexivity]. apply remove_first_appended_marker, Z.
  - apply hideLoading_absent. rewrite hideLoading_markers. lia.
Qed.

Lemma show_then_hide_witness :
  chatBox (world_of (hideLoading (world_of (showLoading (world chat_session)))))
  = chatBox (world chat_session).
Proof.
  pose proof (show_then_hide (world chat_session) ltac:(vm_compute; lia)) as [H _].
  apply H. reflexivity.
Defined.

(** ** Responses of unexpected shape *)

(** X10.  A truthy [result] that is not an object (a string, a number, true,
    an array) gets the generic format error, and so does a result object
    whose [reply] and [error] are not truthy, both whatever top-level [error]
    comes with it.  Without a truthy result, a truthy top-level [error] that
    is not an object has no [message] to show, and the text appended is the
    prefix followed by the word undefined. *)
Theorem unexpected_shapes (w : World) (data : Value) :
  data <> VNull -> data <> VUndefined ->
  (truthy (field data "result") = true ->
   not_object (field data "result")
   \/ (truthy (field (field data "result") "reply") = false
       /\ truthy (field (field data "result") "error") = false) ->
   sendMessage_on_json (Fulfilled data) w
   = Ok tt (with_message w "err" "Error: Unexpected response format"))
  /\ (truthy (field data "result") = false ->
      truthy (field data "error") = true ->
      not_object (field data "error") ->
      sendMessage_on_json (Fulfilled data) w
      = Ok tt (with_message w "err" "Error: undefined")).
Proof.
  intros Hn Hu. split.
  - intros Hr Hshape. apply sendMessage_on_json_render.
    rewrite render_eq by assumption. cbv zeta. rewrite Hr.
    assert (truthy (field (field data "result") "reply") = false
            /\ truthy (field (field data "result") "error") = false) as [-> ->].
    { destruct Hshape as [Hno|H]; [|exact H].
      destruct (field data "result"); try (split; reflexivity). destruct Hno. }
    apply appendMessage_text.
  - intros Hr He Hno. apply sendMessage_on_json_render.
    rewrite render_eq by assumption. cbv zeta. rewrite Hr, He.
    assert (field (field data "error") "message" = VUndefined) as ->.
    { destruct (field data "error"); try reflexivity. destruct Hno. }
    apply appendMessage_text.
Qed.

Lemma unexpected_shapes_witness :
  sendMessage_on_json
    (Fulfilled (VObj [("result", VStr "ok"); ("error", VObj [("message", VStr "down")])]))
    blank
  = Ok tt (with_message blank "err" "Error: Unexpected response format")
  /\ sendMessage_on_json (Fulfilled (VObj [("error", VStr "Access denied")])) blank
     = Ok tt (with_message blank "err" "Error: undefined").
Proof.
  split.
  - pose proof (unexpected_shapes blank
                  (VObj [("result", VStr "ok"); ("error", VObj [("message", VStr "down")])])
                  ltac:(discriminate) ltac:(discriminate)) as [H _].
    apply H; [reflexivity | left; exact I].
  - pose proof (unexpected_shapes blank (VObj [("error", VStr "Access denied")])
                  ltac:(discriminate) ltac:(discriminate)) as [_ H].
    apply H; [reflexivity | reflexivity | exact I].
Defined.

(** ** Text typed into the input field *)

Lemma rev_app_list (s1 s2 : string) :
  list_ascii_of_string (String.rev_app s1 s2)
  = rev (list_ascii_of_string s1) ++ list_ascii_of_string s2.
Proof.
  revert s2. induction s1 as [|c s1 IH]; intros s2; simpl; [reflexivity|].
  rewrite IH. simpl. rewrite <- app_assoc. reflexivity.
Qed.

Lemma string_rev_list (s : string) :
  list_ascii_of_string (String.rev s) = rev (list_ascii_of_string s).
Proof. unfold String.rev. rewrite rev_app_list. simpl. apply app_nil_r. Qed.

Lemma string_rev_involutive (s : string) : String.rev (String.rev s) = s.
Proof.
  rewrite <- (string_of_list_ascii_of_string (String.rev (String.rev s))).
  rewrite !string_rev_list, rev_involutive. apply string_of_list_ascii_of_string.
Qed.

Lemma trim_start_length (s : string) : String.length (trim_start s) <= String.length s.
Proof.
  induction s as [|c s IH]; simpl; [lia|].
  destruct (is_white_space c); simpl; lia.
Qed.

Lemma trim_start_idempotent (s : string) : trim_start (trim_start s) = trim_start s.
Proof.
  induction s as [|c s IH]; simpl; [reflexivity|].
  destruct (is_white_space c) eqn:E; [exact IH|]. simpl. rewrite E. reflexivity.
Qed.

(** The white space [trim_start] drops is a prefix. *)
Lemma trim_start_suffix (s : string) :
  exists p, list_ascii_of_string s = p ++ list_ascii_of_string (trim_start s).
Proof.
  induction s as [|c s [p IH]]; simpl; [exists []; reflexivity|].
  destruct (is_white_space c); [|exists []; reflexivity].
  exists (c :: p). simpl. rewrite IH. reflexivity.
Qed.

(** A string that does not start with white space, cut short, still does not. *)
Lemma trim_start_fixed_prefix (x y : list ascii) :
  trim_start (string_of_list_ascii (x ++ y)) = string_of_list_ascii (x ++ y) ->
  trim_start (string_of_list_ascii x) = string_of_list_ascii x.
Proof.
  destruct x as [|c x]; simpl; [reflexivity|].
  destruct (is_white_space c); [|reflexivity].
  intros H. pose proof (trim_start_length (string_of_list_ascii (x ++ y))) as Hl.
  rewrite H in Hl. simpl in Hl. lia.
Qed.

(** What [trim] returns neither starts nor ends with white space. *)
Lemma trim_clean (v : string) :
  trim_start (trim v) = trim v /\ trim_start (String.rev (trim v)) = String.rev (trim v).
Proof.
  unfold trim. set (a := trim_start v). set (b := trim_start (String.rev a)).
  split; [|rewrite string_rev_involutive; apply trim_start_idempotent].
  destruct (trim_start_suffix (String.rev a)) as [p Hp]. fold b in Hp.
  assert (Ha : list_ascii_of_string a
               = list_ascii_of_string (String.rev b) ++ rev p).
  { rewrite <- (rev_involutive (list_ascii_of_string a)), <- string_rev_list, Hp.
    rewrite rev_app_distr, string_rev_list. reflexivity. }
  rewrite <- (string_of_list_ascii_of_string (String.rev b)).
  apply (trim_start_fixed_prefix _ (rev p)).
  rewrite <- Ha, string_of_list_ascii_of_string. apply trim_start_idempotent.
Qed.

Lemma trim_idempotent (v : string) : trim (trim v) = trim v.
Proof.
  destruct (trim_clean v) as [H1 H2]. unfold trim at 1.
  rewrite H1, H2. apply string_rev_involutive.
Qed.

(** X11.  A text sent from the input field is the field's value trimmed: the
    user message and the request carry a text that neither starts nor ends
    with white space and that trimming leaves as it is, and the field is
    empty afterwards. *)
Theorem typed_text_is_trimmed (w : World) :
  let t := trim (userInput w) in
  t <> EmptyString ->
  exists w',
    sendMessage_begin None w = Ok (Some (request_for t)) w'
    /\ conversation w' = conversation w ++ [{| role := User; text := t |}]
    /\ userInput w' = EmptyString
    /\ trim t = t
    /\ trim_start t = t
    /\ trim_start (String.rev t) = String.rev t.
Proof.
  intros t Hne. subst t.
  change (trim (userInput w)) with (message_text None w) in *.
  rewrite (sendMessage_begin_exact None w Hne). eexists. split; [reflexivity|].
  split; [|split; [reflexivity|]].
  - unfold conversation; cbn [chatBox]. rewrite omap_app.
    destruct (Nat.eqb (markers w) 0); reflexivity.
  - unfold message_text; cbn [js_of truthy]. split; [apply trim_idempotent|].
    apply trim_clean.
Qed.

Lemma typed_text_is_trimmed_witness :
  exists w',
    sendMessage_begin None (world (idle "  where is my order? " []))
    = Ok (Some (request_for "where is my order?")) w'
    /\ conversation w'
       = conversation (world (idle "  where is my order? " []))
           ++ [{| role := User; text := "where is my order?" |}].
Proof.
  pose proof (typed_text_is_trimmed (world (idle "  where is my order? " []))
                ltac:(vm_compute; discriminate)) as (w' & E & C & _).
  exists w'. split; [exact E | exact C].
Defined.

(** * The project configuration script *)

(** ** The project key *)

Lemma key_unit_ascii (n : N) : key_unit n = true -> N_of_ascii (ascii_of_N n) = n.
Proof.
  intros H. apply N_ascii_embedding. unfold key_unit in H.
  apply orb_prop in H as [H|H]; [apply orb_prop in H as [H|H]|].
  - apply andb_prop in H as [_ H]. apply N.leb_le in H. lia.
  - apply andb_prop in H as [_ H]. apply N.leb_le in H. lia.
  - apply N.eqb_eq in H. lia.
Qed.

(** Upper-casing leaves the characters of the key alphabet alone. *)
Lemma upper_units_key (c : ascii) :
  key_unit (N_of_ascii c) = true -> upper_units c = [N_of_ascii c].
Proof.
  destruct c as [[] [] [] [] [] [] [] []]; vm_compute; intros H;
    first [discriminate H | reflexivity].
Qed.

Lemma upper_units_length (c : ascii) : length (upper_units c) <= 2.
Proof. destruct c as [[] [] [] [] [] [] [] []]; vm_compute; lia. Qed.

Lemma project_key_list (v : string) :
  list_ascii_of_string (project_key v)
  = map ascii_of_N (List.filter key_unit (toUpperCase v)).
Proof. unfold project_key. apply list_ascii_of_string_of_list_ascii. Qed.

Lemma project_key_fixed (v : string) :
  Forall (fun c => key_unit (N_of_ascii c) = true) (list_ascii_of_string v) ->
  project_key v = v.
Proof.
  intros H. rewrite <- (string_of_list_ascii_of_string v) at 2.
  unfold project_key, toUpperCase. f_equal.
  induction H as [|c l Hc Hl IH]; [reflexivity|].
  cbn [flat_map]. rewrite (upper_units_key c Hc). cbn [app List.filter].
  rewrite Hc. cbn [map]. rewrite ascii_N_embedding, IH. reflexivity.
Qed.

Lemma project_key_alphabet (v : string) :
  Forall (fun c => key_unit (N_of_ascii c) = true) (list_ascii_of_string (project_key v)).
Proof.
  rewrite project_key_list. apply List.Forall_forall. intros c Hc.
  apply in_map_iff in Hc as (n & <- & Hn). apply List.filter_In in Hn as [_ Hk].
  rewrite (key_unit_ascii n Hk). exact Hk.
Qed.

Lemma string_length_list (s : string) :
  String.length s = length (list_ascii_of_string s).
Proof. induction s; simpl; congruence. Qed.

Lemma filter_length_le {A} (f : A -> bool) (l : list A) :
  length (List.filter f l) <= length l.
Proof. induction l as [|x l IH]; simpl; [lia|]. destruct (f x); simpl; lia. Qed.

(** X12.  Whatever is typed into the project key field, what the listener
    stores back is made of the capital letters A to Z, the digits and the
    hyphen only; a value already so made is stored back unchanged, so the
    listener run on its own output changes nothing; and the stored value is
    at most twice as long as the typed one (the sharp s becoming two
    letters). *)
Theorem project_key_normalised (v : string) :
  Forall (fun c => key_unit (N_of_ascii c) = true) (list_ascii_of_string (project_key v))
  /\ (Forall (fun c => key_unit (N_of_ascii c) = true) (list_ascii_of_string v) ->
      project_key v = v)
  /\ project_key (project_key v) = project_key v
  /\ String.length (project_key v) <= 2 * String.length v.
Proof.
  split; [apply project_key_alphabet|]. split; [apply project_key_fixed|].
  split; [apply project_key_fixed, project_key_alphabet|].
  rewrite !string_length_list, project_key_list, length_map.
  etransitivity; [apply filter_length_le|].
  unfold toUpperCase. induction (list_ascii_of_string v) as [|c l IH]; simpl; [lia|].
  rewrite length_app. pose proof (upper_units_length c). lia.
Qed.

Lemma project_key_normalised_witness :
  project_key "HELP-42" = "HELP-42"
  /\ project_key (project_key "help desk_42") = project_key "help desk_42".
Proof.
  split.
  - destruct (project_key_normalised "HELP-42") as (_ & Hfixed & _).
    apply Hfixed. repeat constructor.
  - destruct (project_key_normalised "help desk_42") as (_ & _ & Hidem & _).
    exact Hidem.
Defined.

(** ** The end date *)

Lemma string_compare_refl (s : string) : String.compare s s = Eq.
Proof.
  induction s as [|c s IH]; simpl; [reflexivity|].
  unfold Ascii.compare. rewrite N.compare_refl. exact IH.
Qed.

(** X13.  The end date is never reported when no start date is set, nor when
    it equals the start date; it is reported when it is emptied while a start
    date is set; and two values are never reported in both orders. *)
Theorem end_date_edges (start_value end_value : string) :
  end_date_validity EmptyString end_value = EmptyString
  /\ end_date_validity start_value start_value = EmptyString
  /\ (start_value <> EmptyString ->
      end_date_validity start_value EmptyString = "End date must be after start date")
  /\ (end_date_validity start_value end_value <> EmptyString ->
      end_date_validity end_value start_value = EmptyString).
Proof.
  unfold end_date_validity, String.ltb. split; [reflexivity|]. split; [|split].
  - rewrite string_compare_refl, andb_false_r. reflexivity.
  - intros Hne. destruct start_value; [contradiction | reflexivity].
  - rewrite (String.compare_antisym start_value end_value).
    destruct (String.compare end_value start_value); simpl;
      rewrite ?andb_false_r; intros H; [contradiction | reflexivity | contradiction].
Qed.

Lemma end_date_edges_witness :
  end_date_validity "2024-05-01" EmptyString = "End date must be after start date"
  /\ end_date_validity "2024-04-30" "2024-05-01" = EmptyString.
Proof.
  split.
  - destruct (end_date_edges "2024-05-01" EmptyString) as (_ & _ & Hempty & _).
    apply Hempty. discriminate.
  - destruct (end_date_edges "2024-05-01" "2024-04-30") as (_ & _ & _ & Hswap).
    apply Hswap. vm_compute. discriminate.
Defined.

Lemma digit_compare (a b : nat) :
  Ascii.compare (digit a) (digit b) = Nat.compare (a mod 10) (b mod 10).
Proof.
  unfold digit.
  pose proof (Nat.mod_upper_bound a 10 ltac:(lia)) as Ha.
  pose proof (Nat.mod_upper_bound b 10 ltac:(lia)) as Hb.
  generalize dependent (a mod 10). generalize dependent (b mod 10).
  intros y Hy x Hx.
  do 10 (destruct x as [|x]; [do 10 (destruct y as [|y]; [reflexivity|]); lia|]). lia.
Qed.

Lemma four_digits (y : nat) :
  y = 1000 * (y / 1000) + 100 * ((y / 100) mod 10) + 10 * ((y / 10) mod 10) + y mod 10.
Proof.
  pose proof (Nat.div_mod_eq y 10) as H1.
  pose proof (Nat.div_mod_eq (y / 10) 10) as H2.
  pose proof (Nat.div_mod_eq (y / 100) 10) as H3.
  replace (y / 10 / 10) with (y / 100) in H2 by (rewrite Nat.Div0.div_div; reflexivity).
  replace (y / 100 / 10) with (y / 1000) in H3 by (rewrite Nat.Div0.div_div; reflexivity).
  lia.
Qed.

Lemma two_digits_value (m : nat) : m < 100 -> m = 10 * ((m / 10) mod 10) + m mod 10.
Proof.
  intros H. pose proof (Nat.div_mod_eq m 10).
  rewrite (Nat.mod_small (m / 10) 10) by (apply Nat.Div0.div_lt_upper_bound; lia). lia.
Qed.

Lemma iso_date_compare (y1 m1 d1 y2 m2 d2 : nat) :
  y1 < 10 * 1000 -> y2 < 10 * 1000 -> m1 < 100 -> m2 < 100 -> d1 < 100 -> d2 < 100 ->
  String.compare (iso_date y1 m1 d1) (iso_date y2 m2 d2) = Lt <-> earlier y1 m1 d1 y2 m2 d2.
Proof.
  intros Hy1 Hy2 Hm1 Hm2 Hd1 Hd2.
  pose proof (four_digits y1) as Y1. pose proof (four_digits y2) as Y2.
  pose proof (two_digits_value m1 Hm1) as M1. pose proof (two_digits_value m2 Hm2) as M2.
  pose proof (two_digits_value d1 Hd1) as D1. pose proof (two_digits_value d2 Hd2) as D2.
  assert (A1 : (y1 / 1000) mod 10 = y1 / 1000)
    by (apply Nat.mod_small, Nat.Div0.div_lt_upper_bound; lia).
  assert (A2 : (y2 / 1000) mod 10 = y2 / 1000)
    by (apply Nat.mod_small, Nat.Div0.div_lt_upper_bound; lia).
  unfold iso_date, two_digits, earlier. cbn [String.compare].
  rewrite !digit_compare, A1, A2.
  change (Ascii.compare "-" "-") with Eq. cbv iota.
  assert (B1 : y1 / 1000 < 10) by (apply Nat.Div0.div_lt_upper_bound; lia).
  assert (B2 : y2 / 1000 < 10) by (apply Nat.Div0.div_lt_upper_bound; lia).
  pose proof (Nat.mod_upper_bound (y1 / 100) 10 ltac:(lia)).
  pose proof (Nat.mod_upper_bound (y2 / 100) 10 ltac:(lia)).
  pose proof (Nat.mod_upper_bound (y1 / 10) 10 ltac:(lia)).
  pose proof (Nat.mod_upper_bound (y2 / 10) 10 ltac:(lia)).
  pose proof (Nat.mod_upper_bound y1 10 ltac:(lia)).
  pose proof (Nat.mod_upper_bound y2 10 ltac:(lia)).
  pose proof (Nat.mod_upper_bound (m1 / 10) 10 ltac:(lia)).
  pose proof (Nat.mod_upper_bound (m2 / 10) 10 ltac:(lia)).
  pose proof (Nat.mod_upper_bound m1 10 ltac:(lia)).
  pose proof (Nat.mod_upper_bound m2 10 ltac:(lia)).
  pose proof (Nat.mod_upper_bound (d1 / 10) 10 ltac:(lia)).
  pose proof (Nat.mod_upper_bound (d2 / 10) 10 ltac:(lia)).
  pose proof (Nat.mod_upper_bound d1 10 ltac:(lia)).
  pose proof (Nat.mod_upper_bound d2 10 ltac:(lia)).
  generalize dependent (y1 / 1000). generalize dependent (y2 / 1000).
  generalize dependent ((y1 / 100) mod 10). generalize dependent ((y2 / 100) mod 10).
  generalize dependent ((y1 / 10) mod 10). generalize dependent ((y2 / 10) mod 10).
  generalize dependent (y1 mod 10). generalize dependent (y2 mod 10).
  generalize dependent ((m1 / 10) mod 10). generalize dependent ((m2 / 10) mod 10).
  generalize dependent (m1 mod 10). generalize dependent (m2 mod 10).
  generalize dependent ((d1 / 10) mod 10). generalize dependent ((d2 / 10) mod 10).
  generalize dependent (d1 mod 10). generalize dependent (d2 mod 10).
  intros.
  repeat match goal with
         | |- context [Nat.compare ?a ?b] => destruct (Nat.compare_spec a b)
         end;
    (split; [intros Hc; try discriminate Hc; lia | intros He; try reflexivity; exfalso; lia]).
Qed.

(** X14.  For the values of two date inputs whose years have four digits,
    the comparison of strings is the comparison of dates: the end date is
    reported exactly when it is earlier in the calendar than the start
    date. *)
Theorem end_date_before_start (sy sm sd ey em ed : nat) :
  sy < 10 * 1000 -> ey < 10 * 1000 -> sm < 100 -> em < 100 -> sd < 100 -> ed < 100 ->
  (earlier ey em ed sy sm sd ->
   end_date_validity (iso_date sy sm sd) (iso_date ey em ed)
   = "End date must be after start date")
  /\ (~ earlier ey em ed sy sm sd ->
      end_date_validity (iso_date sy sm sd) (iso_date ey em ed) = EmptyString).
Proof.
  intros Hsy Hey Hsm Hem Hsd Hed.
  pose proof (iso_date_compare ey em ed sy sm sd Hey Hsy Hem Hsm Hed Hsd) as Hc.
  unfold end_date_validity, String.ltb.
  change (truthy (VStr (iso_date sy sm sd))) with true. cbn [andb].
  split; intros He.
  - apply Hc in He. rewrite He. reflexivity.
  - destruct (String.compare (iso_date ey em ed) (iso_date sy sm sd)) eqn:E;
      try reflexivity. destruct He. apply Hc. reflexivity.
Qed.

Lemma end_date_before_start_witness :
  end_date_validity "2024-05-01" "2024-04-30" = "End date must be after start date"
  /\ end_date_validity "2024-05-01" "2024-05-01" = EmptyString.
Proof.
  split.
  - apply (end_date_before_start 2024 5 1 2024 4 30); try lia.
    unfold earlier. lia.
  - apply (end_date_before_start 2024 5 1 2024 5 1); try lia.
    unfold earlier. lia.
Defined.

(** * The login script *)

Lemma classList_remove_In (token c : string) (classes : list string) :
  In c (classList_remove token classes) <-> In c classes /\ c <> token.
Proof.
  unfold classList_remove. rewrite List.filter_In.
  destruct (String.eqb_spec c token); simpl; intuition congruence.
Qed.

Lemma classList_add_In (token c : string) (classes : list string) :
  In c (classList_add token classes) <-> c = token \/ In c classes.
Proof.
  unfold classList_add. destruct (existsb (String.eqb token) classes) eqn:E.
  - apply existsb_exists in E as (x & Hx & Hq). apply String.eqb_eq in Hq. subst x.
    intuition congruence.
  - rewrite in_app_iff. simpl. intuition congruence.
Qed.

(** X15.  On a page with both the field and the icon, togglePassword returns
    normally; a password field becomes a text field and any other field a
    password field; afterwards the icon carries exactly the one of its two
    classes that goes with the new type, whatever it carried before, and its
    other classes are as they were. *)
Theorem toggle_sets_matching_icon (p : LoginPage) (type : string) (classes : list string) :
  passwordField p = Some type ->
  toggleIcon p = Some classes ->
  exists classes',
    togglePassword p
    = Returned {| passwordField := Some (if String.eqb type "password" then "text"
                                         else "password");
                  toggleIcon := Some classes' |}
    /\ icon_matches (page_of (togglePassword p))
    /\ (forall c, c <> "bi-eye-fill" -> c <> "bi-eye-slash-fill" ->
                  (In c classes' <-> In c classes)).
Proof.
  intros Hf Hi. unfold togglePassword. rewrite Hf, Hi.
  destruct (String.eqb type "password"); eexists; (split; [reflexivity|]); split.
  - unfold icon_matches; cbn [page_of passwordField toggleIcon].
    eexists _, _. split; [reflexivity|]. split; [reflexivity|].
    split; [right; reflexivity|].
    rewrite !classList_add_In, !classList_remove_In.
    split; split; intros H; try discriminate H; intuition congruence.
  - intros c H1 H2. rewrite classList_add_In, classList_remove_In. intuition congruence.
  - unfold icon_matches; cbn [page_of passwordField toggleIcon].
    eexists _, _. split; [reflexivity|]. split; [reflexivity|].
    split; [left; reflexivity|].
    rewrite !classList_add_In, !classList_remove_In.
    split; split; intros H; try discriminate H; intuition congruence.
  - intros c H1 H2. rewrite classList_add_In, classList_remove_In. intuition congruence.
Qed.

Lemma toggle_sets_matching_icon_witness :
  exists classes',
    togglePassword {| passwordField := Some "password";
                      toggleIcon := Some ["bi"; "bi-eye-fill"] |}
    = Returned {| passwordField := Some "text"; toggleIcon := Some classes' |}
    /\ icon_matches (page_of (togglePassword {| passwordField := Some "password";
                                                toggleIcon := Some ["bi"; "bi-eye-fill"] |})).
Proof.
  destruct (toggle_sets_matching_icon
              {| passwordField := Some "password"; toggleIcon := Some ["bi"; "bi-eye-fill"] |}
              "password" ["bi"; "bi-eye-fill"] eq_refl eq_refl) as (classes' & E & M & _).
  exists classes'. split; [exact E | exact M].
Defined.

(** X16.  From a page whose icon matches the field's type, two calls of
    togglePassword bring back the type and the icon's set of classes. *)
Theorem toggle_twice (p : LoginPage) (type : string) (classes : list string) :
  passwordField p = Some type ->
  toggleIcon p = Some classes ->
  icon_matches p ->
  exists classes'',
    togglePassword (page_of (togglePassword p))
    = Returned {| passwordField := Some type; toggleIcon := Some classes'' |}
    /\ forall c, In c classes'' <-> In c classes.
Proof.
  intros Hf Hi (type' & classes' & Hf' & Hi' & Hty & Heye & Hslash).
  rewrite Hf in Hf'. rewrite Hi in Hi'. injection Hf' as <-. injection Hi' as <-.
  unfold togglePassword at 2. rewrite Hf, Hi.
  destruct Hty as [-> | ->]; cbn; eexists; (split; [reflexivity|]); intros c;
    repeat (rewrite classList_add_In || rewrite classList_remove_In);
    destruct (String.eqb_spec c "bi-eye-fill") as [E1 | N1];
    destruct (String.eqb_spec c "bi-eye-slash-fill") as [E2 | N2];
    try (rewrite E1 in E2; discriminate E2); try subst c; intuition congruence.
Qed.

Lemma toggle_twice_witness :
  exists classes'',
    togglePassword (page_of (togglePassword {| passwordField := Some "password";
                                                toggleIcon := Some ["bi"; "bi-eye-fill"] |}))
    = Returned {| passwordField := Some "password"; toggleIcon := Some classes'' |}
    /\ forall c, In c classes'' <-> In c ["bi"; "bi-eye-fill"].
Proof.
  apply (toggle_twice {| passwordField := Some "password";
                         toggleIcon := Some ["bi"; "bi-eye-fill"] |}
                      "password" ["bi"; "bi-eye-fill"] eq_refl eq_refl).
  exists "password", ["bi"; "bi-eye-fill"]. cbn.
  split; [reflexivity|]. split; [reflexivity|]. split; [left; reflexivity|].
  split; split; intros H; try reflexivity; try discriminate H.
  - right. left. reflexivity.
  - destruct H as [H|[H|[]]]; discriminate H.
Defined.

(** X17.  Without the field, togglePassword throws and leaves the page as it
    was.  With the field but without the icon it throws as well, yet only
    after having switched the field's type: the field is left toggled. *)
Theorem toggle_without_elements (p : LoginPage) :
  (passwordField p = None ->
   exists e, togglePassword p = Raised e p)
  /\ (forall type,
        passwordField p = Some type -> toggleIcon p = None ->
        exists e,
          togglePassword p
          = Raised e {| passwordField := Some (if String.eqb type "password" then "text"
                                               else "password");
                        toggleIcon := None |}).
Proof.
  split.
  - intros Hf. unfold togglePassword. rewrite Hf. eexists. reflexivity.
  - intros type Hf Hi. unfold togglePassword. rewrite Hf, Hi.
    destruct (String.eqb type "password"); eexists; reflexivity.
Qed.

Lemma toggle_without_elements_witness :
  exists e,
    togglePassword {| passwordField := Some "password"; toggleIcon := None |}
    = Raised e {| passwordField := Some "text"; toggleIcon := None |}.
Proof.
  destruct (toggle_without_elements
              {| passwordField := Some "password"; toggleIcon := None |}) as [_ H].
  exact (H "password" eq_refl eq_refl).
Defined.

(** * The marker and the outstanding requests *)

Lemma fetching_app (l1 l2 : list Task) : fetching (l1 ++ l2) = fetching l1 + fetching l2.
Proof. unfold fetching. rewrite List.filter_app, length_app. reflexivity. Qed.

Lemma fetching_delete_parsed (l : list Task) (i : nat) :
  l !! i = Some AwaitingJson -> fetching (delete i l) = fetching l.
Proof.
  revert i. induction l as [|t l IH]; intros [|i] H; try discriminate H.
  - injection H as ->. reflexivity.
  - change (delete (S i) (t :: l)) with (t :: delete i l).
    change (l !! i = Some AwaitingJson) in H. specialize (IH i H).
    unfold fetching in *. cbn [List.filter].
    destruct (is_fetching t); cbn [length]; congruence.
Qed.

Lemma fetching_found (l : list Task) :
  1 <= fetching l -> exists i r, l !! i = Some (AwaitingFetch r).
Proof.
  unfold fetching. induction l as [|t l IH]; simpl; [lia|].
  destruct t as [r|]; simpl.
  - intros _. exists 0, r. reflexivity.
  - intros H. destruct (IH H) as (i & r & Hi). exists (S i), r. exact Hi.
Qed.

(** While a marker shows, some request has not settled: a step of the event
    loop keeps the number of markers within both one and the number of such
    requests. *)
Lemma step_marker_backed (s : Session) (ev : Event) :
  markers (world s) <= Nat.min 1 (fetching (tasks s)) ->
  markers (world (step s ev)) <= Nat.min 1 (fetching (tasks (step s ev))).
Proof.
  intros Hm.
  assert (Hcall : forall manualMsg s0,
             markers (world s0) = markers (world s) -> tasks s0 = tasks s ->
             markers (world (call_sendMessage manualMsg s0))
             <= Nat.min 1 (fetching (tasks (call_sendMessage manualMsg s0)))).
  { intros manualMsg s0 E0 T0. rewrite call_sendMessage_markers, E0.
    destruct (String.eqb_spec (message_text manualMsg (world s0)) EmptyString) as [E|Hne].
    - rewrite (call_sendMessage_nothing _ _ E), T0. exact Hm.
    - rewrite (call_sendMessage_exact _ _ Hne). cbn [tasks with_tasks].
      rewrite fetching_app, T0. change (fetching [_]) with 1. lia. }
  destruct ev as [v| |key|confirmed|i|i res|i data].
  - exact Hm.
  - unfold step. destruct (sendBtn s); [apply Hcall; reflexivity | exact Hm].
  - unfold step. destruct (String.eqb key "Enter"); [apply Hcall; reflexivity | exact Hm].
  - unfold step. destruct (clearBtn s); [|exact Hm]. destruct confirmed; [|exact Hm].
    unfold clear_click, bind, clearChildren. rewrite appendMessage_text.
    unfold markers; cbn. change (count_markers [_]) with 0. lia.
  - unfold step. destruct (quickReplies s !! i); [apply Hcall; reflexivity | exact Hm].
  - destruct (tasks s !! i) as [[r|]|] eqn:Ht;
      try (unfold step; rewrite Ht; exact Hm).
    destruct res as [u|err].
    + rewrite (step_fetch_fulfilled _ _ _ _ Ht). cbn [world with_tasks with_world].
      rewrite hideLoading_markers. lia.
    + rewrite (step_fetch_rejected _ _ _ _ Ht). cbn [world with_tasks with_world].
      rewrite sendMessage_catch_markers. lia.
  - destruct (tasks s !! i) as [[r|]|] eqn:Ht;
      try (unfold step; rewrite Ht; exact Hm).
    unfold step. rewrite Ht. cbn [world tasks with_tasks with_world].
    rewrite (fetching_delete_parsed _ _ Ht).
    destruct (sendMessage_on_json_spec data (world s)) as (m & fx & w' & -> & _ & _ & Hle).
    cbn [world_of]. lia.
Qed.

Lemma run_marker_backed (evs : list Event) (s : Session) :
  markers (world s) <= Nat.min 1 (fetching (tasks s)) ->
  markers (world (run s evs)) <= Nat.min 1 (fetching (tasks (run s evs))).
Proof.
  revert s. induction evs as [|ev evs IH]; intros s Hm; [exact Hm|].
  simpl. apply IH, step_marker_backed, Hm.
Qed.

(** X18.  On a page whose chat box comes without a marker, the marker never
    shows for nothing: after any sequence of events, if a marker is in the
    chat box then some call of sendMessage is still waiting for its request
    to settle, and that settlement will take the marker out. *)
Theorem marker_means_outstanding (d : Document) (s : Session) (evs : list Event) :
  DOMContentLoaded d = Attached s ->
  count_markers (default [] (doc_chatBox d)) = 0 ->
  1 <= markers (world (run s evs)) ->
  exists i r,
    tasks (run s evs) !! i = Some (AwaitingFetch r)
    /\ forall res, markers (world (step (run s evs) (FetchSettled i res))) = 0.
Proof.
  intros Hd Ht Hm.
  assert (H0 : markers (world s) <= Nat.min 1 (fetching (tasks s))).
  { unfold DOMContentLoaded in Hd.
    destruct (doc_chatBox d) as [children|]; [|discriminate].
    destruct (doc_userInput d) as [value|]; [|discriminate].
    injection Hd as <-. unfold markers; cbn [world chatBox tasks].
    rewrite count_markers_app. change (count_markers [_]) with 0.
    simpl in Ht. lia. }
  pose proof (run_marker_backed evs s H0) as Hr.
  destruct (fetching_found (tasks (run s evs))) as (i & r & Hi); [lia|].
  exists i, r. split; [exact Hi|].
  intros [u|err].
  - rewrite (step_fetch_fulfilled _ _ _ _ Hi). cbn [world with_tasks with_world].
    rewrite hideLoading_markers. lia.
  - rewrite (step_fetch_rejected _ _ _ _ Hi). cbn [world with_tasks with_world].
    rewrite sendMessage_catch_markers. lia.
Qed.

Lemma marker_means_outstanding_witness :
  exists i r,
    tasks (run chat_session overlapping) !! i = Some (AwaitingFetch r)
    /\ forall res,
        markers (world (step (run chat_session overlapping) (FetchSettled i res))) = 0.
Proof.
  apply (marker_means_outstanding chat_page chat_session overlapping).
  - reflexivity.
  - reflexivity.
  - vm_compute. lia.
Defined.
